(** * Power-House Dashboard: section capture and export pipeline

    A shallow embedding of the capture registry and of the three exporters
    of [app.py] (bitmap-grid PDF, narrative DOCX, slide deck), with the
    properties of the specification stated over it.

    Conventions of the embedding.
    - The three module-level globals [SECTION_FIGS], [SECTION_CARDS] and
      [CURRENT_SECTION] are one record that every operation receives and
      returns.  The two [defaultdict(list)] are finite maps; a read
      [d.get(k, [])] is a lookup with default, [d[k].append(x)] inserts the
      extended list (creating the key when absent), [d[k] = []] inserts.
    - A Python exception is the constructor [Raise]; a function that can
      raise returns a [result].
    - Calls into pandas, numpy, plotly/kaleido and reportlab whose outcome
      depends on data or on the installation are fields of an environment
      record [Env]: the code is modelled around them, as written.
    - A Python float is an [fnum]: a finite value carried as the exact
      rational it denotes, the two infinities, or NaN.  Sums and means are
      exact; the rounding of binary floating-point addition is not modelled.
      Decimal formatting ([format(v, ',.0f')] and the like) rounds the exact
      value half-to-even, as CPython does.  Where a conversion or a single
      division decides an outcome ([float(n)] of a large int, the quotient
      of [safe_div]), the result is rounded to the nearest double. *)

From Stdlib Require Import ZArith QArith Qabs Qround String Ascii List Bool Lia.
From Stdlib Require Import DecimalString.
From Stdlib Require Import Lqa.
From stdpp Require Import base gmap strings list fin_maps.

Import ListNotations.
Local Open Scope string_scope.
Local Open Scope list_scope.

(* ===================================================================== *)
(** * Part I: definitions *)
(* ===================================================================== *)

(** ** Results of code that can raise *)

Inductive exn : Type :=
| RuntimeError (msg : string)   (* raised by the exporters themselves *)
| LibraryError (msg : string).  (* escaped from a library call *)

Inductive result (A : Type) : Type :=
| Ok (a : A)
| Raise (e : exn).

Arguments Ok {A} a.
Arguments Raise {A} e.

Definition bind {A B : Type} (m : result A) (k : A -> result B) : result B :=
  match m with
  | Ok a => k a
  | Raise e => Raise e
  end.

Notation "'let!' x ':=' m 'in' k" := (bind m (fun x => k))
  (at level 10, x pattern, m at level 100, k at level 200).

Definition is_ok {A : Type} (m : result A) : bool :=
  match m with Ok _ => true | Raise _ => false end.

(** ** Python floats *)

Inductive fnum : Type :=
| Fin (q : Q)
| PInf
| NInf
| NaN.

Definition isnan (v : fnum) : bool :=
  match v with NaN => true | _ => false end.

(** [pd.notna] on a float cell. *)
Definition notna (v : fnum) : bool := negb (isnan v).

(** [np.isfinite]. *)
Definition isfinite (v : fnum) : bool :=
  match v with Fin _ => true | _ => false end.

(** [a <= b] on floats; false as soon as one side is NaN. *)
Definition fleb (a b : fnum) : bool :=
  match a, b with
  | NaN, _ | _, NaN => false
  | NInf, _ => true
  | _, PInf => true
  | Fin x, Fin y => Qle_bool x y
  | _, _ => false
  end.

(** [a < b] on floats. *)
Definition fltb (a b : fnum) : bool :=
  match a, b with
  | NaN, _ | _, NaN => false
  | Fin x, Fin y => negb (Qle_bool y x)
  | NInf, NInf => false
  | NInf, _ => true
  | PInf, _ => false
  | Fin _, PInf => true
  | Fin _, NInf => false
  end.

Definition fadd (a b : fnum) : fnum :=
  match a, b with
  | NaN, _ | _, NaN => NaN
  | Fin x, Fin y => Fin (x + y)
  | PInf, NInf | NInf, PInf => NaN
  | PInf, _ | _, PInf => PInf
  | NInf, _ | _, NInf => NInf
  end.

Definition fsub (a b : fnum) : fnum :=
  match a, b with
  | NaN, _ | _, NaN => NaN
  | Fin x, Fin y => Fin (x - y)
  | PInf, PInf | NInf, NInf => NaN
  | PInf, _ | _, NInf => PInf
  | NInf, _ | _, PInf => NInf
  end.

(** Division of a float by a positive count. *)
Definition fdiv_count (a : fnum) (n : nat) : fnum :=
  match a with
  | Fin x => Fin (x / inject_Z (Z.of_nat n))
  | other => other
  end.

Definition fabs (a : fnum) : fnum :=
  match a with
  | Fin x => Fin (Qabs x)
  | PInf | NInf => PInf
  | NaN => NaN
  end.

(** [float.is_integer()]. *)
Definition is_integer (a : fnum) : bool :=
  match a with
  | Fin x => Qeq_bool (inject_Z (Qfloor x)) x
  | _ => false
  end.

(** ** Charts, traces and cards *)

Inductive month : Type :=
| Jan | Feb | Mar | Apr | May | Jun | Jul | Aug | Sep | Oct | Nov | Dec.

(** A cell of a trace's [x] array: a value that [pd.to_datetime] reads as a
    date (only its year and month reach the output), or any other value,
    carried as its [str()]. *)
Inductive xval : Type :=
| XDate (year : nat) (m : month)
| XText (s : string).

(** A cell of a trace's [y] or [values] array, as a Python object. *)
Inductive pyval : Type :=
| PyFloat (v : fnum)
| PyNone
| PyStr (s : string)
| PyObj (repr : string).   (* any other object: a nested list, a dict, ... *)

Record Trace : Type := mkTrace {
  ttype : string;           (* tr.type: "scatter", "bar", "pie", ... *)
  tname : option string;    (* tr.name, None when unset *)
  tx : list xval;           (* tr.x *)
  ty : list pyval;          (* tr.y *)
  tlabels : list string;    (* tr.labels (pie) *)
  tvalues : list pyval      (* tr.values (pie) *)
}.

Record Title : Type := mkTitle { text : option string }.
Record Layout : Type := mkLayout { title : option Title }.

Record Figure : Type := mkFigure {
  layout : option Layout;
  data : list Trace
}.

Record Card : Type := mkCard {
  label : string;
  value : string;
  delta : option string;
  delta_color : string
}.

(** One call of [capture_metric_cards]: the dict [{"cards": ..., "title": ...}]. *)
Record CardGroup : Type := mkCardGroup {
  cards : list Card;
  group_title : string
}.

(** ** Section capture registry *)

Record Registry : Type := mkRegistry {
  SECTION_FIGS : gmap string (list Figure);
  SECTION_CARDS : gmap string (list CardGroup);
  CURRENT_SECTION : string
}.

(** State at import time: two empty dicts and [CURRENT_SECTION = [""]]. *)
Definition initial_registry : Registry :=
  {| SECTION_FIGS := ∅; SECTION_CARDS := ∅; CURRENT_SECTION := "" |}.

(** [SECTION_FIGS.get(name, [])] *)
Definition get_figs (r : Registry) (name : string) : list Figure :=
  default [] (SECTION_FIGS r !! name).

(** [SECTION_CARDS.get(name, [])] *)
Definition get_cards (r : Registry) (name : string) : list CardGroup :=
  default [] (SECTION_CARDS r !! name).

Definition begin_section (name : string) (r : Registry) : Registry :=
  {| CURRENT_SECTION := name;
     SECTION_FIGS := <[name := []]> (SECTION_FIGS r);
     SECTION_CARDS := <[name := []]> (SECTION_CARDS r) |}.

(** [CURRENT_SECTION[0] or "Page"] *)
Definition capture_target (r : Registry) : string :=
  if String.eqb (CURRENT_SECTION r) "" then "Page" else CURRENT_SECTION r.

Definition capture_fig (fig : Figure) (r : Registry) : Registry :=
  let name := capture_target r in
  {| CURRENT_SECTION := CURRENT_SECTION r;
     SECTION_FIGS := <[name := get_figs r name ++ [fig]]> (SECTION_FIGS r);
     SECTION_CARDS := SECTION_CARDS r |}.

Definition capture_metric_cards (cards_data : list Card) (section_title : string)
    (r : Registry) : Registry :=
  let name := capture_target r in
  {| CURRENT_SECTION := CURRENT_SECTION r;
     SECTION_FIGS := SECTION_FIGS r;
     SECTION_CARDS :=
       <[name := get_cards r name ++ [mkCardGroup cards_data section_title]]>
         (SECTION_CARDS r) |}.

(** The mutation surface of the registry, as a command language, so that a
    render pass is a list of commands. *)
Inductive command : Type :=
| Begin (name : string)
| CaptureFig (fig : Figure)
| CaptureCards (cards_data : list Card) (section_title : string).

Definition exec (c : command) (r : Registry) : Registry :=
  match c with
  | Begin name => begin_section name r
  | CaptureFig fig => capture_fig fig r
  | CaptureCards cs t => capture_metric_cards cs t r
  end.

Definition run (cs : list command) (r : Registry) : Registry :=
  fold_left (fun acc c => exec c acc) cs r.

(** ** Decimal formatting of floats

    [format(v, spec)] for the presentation type [f], restricted to the
    specs the exporters use: an optional [+] sign, an optional [,]
    thousands separator and a precision. *)

(** Nearest integer to the non-negative rational [n / d], ties to even. *)
Definition round_half_even (n : Z) (d : Z) : Z :=
  let f := (n / d)%Z in
  let rem := (n mod d)%Z in
  match (2 * rem ?= d)%Z with
  | Lt => f
  | Gt => (f + 1)%Z
  | Eq => if Z.even f then f else (f + 1)%Z
  end.

(** [|q| * 10^prec], rounded to an integer. *)
Definition scaled_round (prec : nat) (q : Q) : Z :=
  round_half_even (Z.abs (Qnum q) * 10 ^ Z.of_nat prec) (Z.pos (Qden q)).

Definition digit_char (d : Z) : ascii :=
  ascii_of_nat (48 + Z.to_nat (d mod 10)%Z).

(** The [k] low decimal digits of [n], most significant first. *)
Fixpoint fixed_digits (k : nat) (n : Z) : list ascii :=
  match k with
  | O => []
  | S k' => fixed_digits k' (n / 10)%Z ++ [digit_char n]
  end.

(** Decimal digits of a non-negative integer, ["0"] for zero. *)
Definition int_digits (n : Z) : list ascii :=
  list_ascii_of_string (NilZero.string_of_uint (N.to_uint (Z.to_N n))).

(** A comma after every third digit of a reversed digit list. *)
Fixpoint group3_rev (ds : list ascii) : list ascii :=
  match ds with
  | a :: b :: c :: rest =>
      match rest with
      | [] => [a; b; c]
      | _ :: _ => a :: b :: c :: ","%char :: group3_rev rest
      end
  | short => short
  end.

Definition group_thousands (ds : list ascii) : list ascii :=
  rev (group3_rev (rev ds)).

Definition sign_text (plus : bool) (negative : bool) : string :=
  if negative then "-" else if plus then "+" else "".

(** [format(v, "[+][,].<prec>f")] *)
Definition py_format_f (plus comma : bool) (prec : nat) (v : fnum) : string :=
  match v with
  | NaN => sign_text plus false +:+ "nan"
  | PInf => sign_text plus false +:+ "inf"
  | NInf => "-inf"
  | Fin q =>
      let n := scaled_round prec q in
      let ip := (n / 10 ^ Z.of_nat prec)%Z in
      let ds := int_digits ip in
      let ds' := if comma then group_thousands ds else ds in
      sign_text plus (negb (Qle_bool 0 q)) +:+
      string_of_list_ascii ds' +:+
      match prec with
      | O => ""
      | S _ => "." +:+ string_of_list_ascii (fixed_digits prec n)
      end
  end.

(** [_fmt_val(v, suffix)]; [None] is Python's [None]. *)
Definition _fmt_val (v : option fnum) (suffix : string) : string :=
  match v with
  | None => "—"
  | Some x =>
      if isnan x then "—"
      else if fleb (Fin 1000) (fabs x) && negb (String.eqb suffix "%")
      then py_format_f false true 0 x +:+ suffix
      else if String.eqb suffix "%"
      then py_format_f false false 1 x +:+ "%"
      else if negb (is_integer x)
      then py_format_f false false 2 x +:+ suffix
      else py_format_f false true 0 x +:+ suffix
  end.

(** ** Month labels *)

Definition month_abbr (m : month) : string :=
  match m with
  | Jan => "Jan" | Feb => "Feb" | Mar => "Mar" | Apr => "Apr"
  | May => "May" | Jun => "Jun" | Jul => "Jul" | Aug => "Aug"
  | Sep => "Sep" | Oct => "Oct" | Nov => "Nov" | Dec => "Dec"
  end.

Definition string_of_nat (n : nat) : string :=
  NilZero.string_of_uint (Nat.to_uint n).

(** [_month_name(xval)]: ["%b %Y"] of the date, and [str(xval)] when
    [pd.to_datetime] or [strftime] raises. *)
Definition _month_name (x : xval) : string :=
  match x with
  | XDate y m => month_abbr m +:+ " " +:+ string_of_nat y
  | XText s => s
  end.

(** ** Library calls taken as given

    [None] stands for a raised exception. *)

Record Preset : Type := mkPreset {
  scale : N;
  size : option (N * N)          (* width, height; None: plotly's default *)
}.

(** The bytes of a PNG image. *)
Definition Png : Type := string.

Record Env : Type := mkEnv {
  (** the import guards at the top of the module *)
  _DOCX_OK : bool;
  _PPTX_OK : bool;
  _PDF_MERGE_OK : bool;
  (** [pd.to_numeric(pd.Series(values), errors="coerce")], with the float
      conversions applied to its cells *)
  pd_to_numeric : list pyval -> option (list fnum);
  (** [np.asarray(y, dtype=float)] *)
  np_asarray_float : list pyval -> option (list fnum);
  (** [pio.to_image(fig, format="png", scale=.., width=.., height=..)],
      called on the figure after [_force_month_labels] rewrote its date
      labels *)
  to_image : Figure -> Preset -> option Png;
  (** [ImageReader(io.BytesIO(png)).getSize()] *)
  image_size : Png -> option (N * N)
}.

Definition lib_call {A : Type} (what : string) (o : option A) : result A :=
  match o with
  | Some a => Ok a
  | None => Raise (LibraryError what)
  end.

(** ** Series statistics (pandas, [skipna=True]) *)

Definition dropna (s : list fnum) : list fnum := List.filter (fun v => notna v) s.

(** [s.notna().any()] *)
Definition any_notna (s : list fnum) : bool := existsb notna s.

Definition fmin (a b : fnum) : fnum := if fltb b a then b else a.
Definition fmax (a b : fnum) : fnum := if fltb a b then b else a.

(** [s.min(skipna=True)]; NaN when nothing is left. *)
Definition series_min (s : list fnum) : fnum :=
  match dropna s with
  | [] => NaN
  | v :: vs => fold_left fmin vs v
  end.

Definition series_max (s : list fnum) : fnum :=
  match dropna s with
  | [] => NaN
  | v :: vs => fold_left fmax vs v
  end.

(** [s.sum(skipna=True)] *)
Definition series_sum (s : list fnum) : fnum :=
  fold_left fadd (dropna s) (Fin 0).

(** [s.mean(skipna=True)] *)
Definition series_mean (s : list fnum) : fnum :=
  match dropna s with
  | [] => NaN
  | vs => fdiv_count (series_sum s) (List.length vs)
  end.

(** Position of the first cell of [s], from position [i] on, that is not
    NaN and is neither above nor below [target]. *)
Fixpoint first_index_from (i : nat) (target : fnum) (s : list fnum) : option nat :=
  match s with
  | [] => None
  | v :: rest =>
      if fleb v target && fleb target v then Some i
      else first_index_from (S i) target rest
  end.

(** [int(s.idxmin())] on the default index; [None] when it raises. *)
Definition series_idxmin (s : list fnum) : option nat :=
  first_index_from 0 (series_min s) s.

Definition series_idxmax (s : list fnum) : option nat :=
  first_index_from 0 (series_max s) s.

(** ** Narrative generator *)

Definition join (sep : string) (parts : list string) : string :=
  String.concat sep parts.

(** [getattr(tr, "name", "") or default] *)
Definition name_or (tr : Trace) (dflt : string) : string :=
  match tname tr with
  | Some n => if String.eqb n "" then dflt else n
  | None => dflt
  end.

(** The local [_m(i)] of [_describe_trace]. *)
Definition month_at (xs : list xval) (i : option nat) : string :=
  match i with
  | Some k =>
      match nth_error xs k with
      | Some x => _month_name x
      | None => "—"
      end
  | None => "—"
  end.

Definition neutral_sentence (name : string) : string :=
  name +:+ ": no numeric values available.".

Definition _describe_trace (E : Env) (tr : Trace) : result string :=
  let name := name_or tr (if String.eqb (ttype tr) "pie" then "Share" else "Series") in
  let xs := tx tr in
  let ys := ty tr in
  if String.eqb (ttype tr) "pie" then
    let labels := tlabels tr in
    let values := tvalues tr in
    if negb (Nat.eqb (List.length labels) 0) && negb (Nat.eqb (List.length values) 0)
    then
      let! s_vals := lib_call "to_numeric" (pd_to_numeric E values) in
      let parts :=
        map (fun lv : string * fnum =>
               let (lbl, val) := lv in
               if notna val then lbl +:+ ": " +:+ _fmt_val (Some val) ""
               else lbl +:+ ": —")
            (combine labels s_vals) in
      let total := if any_notna s_vals then Some (series_sum s_vals) else None in
      let ttxt := match total with Some t => _fmt_val (Some t) "" | None => "—" end in
      Ok (name +:+ " shows composition — total " +:+ ttxt +:+ "; " +:+ join "; " parts)
    else Ok (name +:+ " shows composition data.")
  else if negb (Nat.eqb (List.length ys) 0) then
    let! s := lib_call "to_numeric" (pd_to_numeric E ys) in
    if any_notna s then
      let mn := series_min s in
      let mx := series_max s in
      let avg := series_mean s in
      let ssum := series_sum s in
      let idx_min := series_idxmin s in
      let idx_max := series_idxmax s in
      let m_min := month_at xs idx_min in
      let m_max := month_at xs idx_max in
      Ok (name +:+ ": peak " +:+ _fmt_val (Some mx) "" +:+ " in " +:+ m_max +:+
          ", lowest " +:+ _fmt_val (Some mn) "" +:+ " in " +:+ m_min +:+
          ", average " +:+ _fmt_val (Some avg) "" +:+
          ", total " +:+ _fmt_val (Some ssum) "" +:+ ".")
    else Ok (neutral_sentence name)
  else Ok (neutral_sentence name).

Definition _intro_for_section (title_text : string) : string :=
  "Dear Sir,

" +:+
  "This document summarizes insights from the **" +:+ title_text +:+
  "** tab of the Powerhouse Dashboard " +:+
  "for PETPAK & GPAK. It provides a concise narrative of every chart and series displayed, " +:+
  "highlighting highs, lows, trends, and totals to support informed decision-making.
".

Definition _outro_note : string :=
  "
If you require deeper drill-downs (e.g., per asset, per shift, or rate sensitivity), kindly advise.

" +:+
  "Regards,
Technical Analytics Team".

(** A paragraph of the Word document: the centred bold title, a bold
    figure heading, or a body paragraph. *)
Inductive Paragraph : Type :=
| TitlePara (s : string)
| HeadingPara (s : string)
| BodyPara (s : string).

(** [fig.layout.title.text if fig.layout and fig.layout.title else None] *)
Definition layout_title_text (fig : Figure) : option string :=
  match layout fig with
  | Some l =>
      match title l with
      | Some t => text t
      | None => None
      end
  | None => None
  end.

(** Python's [x or y] on an optional string. *)
Definition or_else (x : option string) (y : string) : string :=
  match x with
  | Some s => if String.eqb s "" then y else s
  | None => y
  end.

(** The bullets of one figure: the loop over [traces] of
    [build_section_docx], which stops at the first trace whose sentence
    raises. *)
Fixpoint trace_bullets (E : Env) (traces : list Trace) : result (list Paragraph) :=
  match traces with
  | [] => Ok []
  | tr :: rest =>
      let! desc := _describe_trace E tr in
      let! more := trace_bullets E rest in
      Ok (BodyPara ("• " +:+ desc) :: more)
  end.

Definition stacked_note : string :=
  "• Where stacked bars are shown, combined monthly totals are labeled on top for quick comparison.".

Definition figure_block (E : Env) (idx : nat) (fig : Figure) : result (list Paragraph) :=
  let ftitle := or_else (layout_title_text fig) ("Figure " +:+ string_of_nat idx) in
  let h := HeadingPara (string_of_nat idx +:+ ". " +:+ ftitle) in
  match data fig with
  | [] => Ok [h; BodyPara "• No chart data available for this figure."]
  | traces =>
      let! bullets := trace_bullets E traces in
      Ok (h :: bullets ++ [BodyPara stacked_note])
  end.

(** The loop [for idx, fig in enumerate(figs, start=idx)]. *)
Fixpoint figure_blocks (E : Env) (idx : nat) (figs : list Figure) : result (list Paragraph) :=
  match figs with
  | [] => Ok []
  | fig :: rest =>
      let! b := figure_block E idx fig in
      let! more := figure_blocks E (S idx) rest in
      Ok (b ++ more)
  end.

Definition docx_missing : exn :=
  RuntimeError "python-docx not installed. Please run: pip install python-docx".

Definition build_section_docx (E : Env) (r : Registry)
    (section_name title_text : string) : result (list Paragraph) :=
  if negb (_DOCX_OK E) then Raise docx_missing
  else
    let figs := get_figs r section_name in
    let! blocks := figure_blocks E 1 figs in
    Ok (TitlePara title_text :: BodyPara (_intro_for_section title_text) ::
        blocks ++ [BodyPara _outro_note]).

(** ** Slide-deck exporter *)

Inductive SlideBody : Type :=
| TitleSlide (hero subtitle : string)
| GraphSlide (caption : option string) (png : Png)
| ExplainSlide (header : string) (bullets : list string)
| ConclusionSlide (header : string) (bullets : list string).

(** A slide and the two numbers of its footer, [f"{idx} / {total}"]. *)
Record Slide : Type := mkSlide {
  body : SlideBody;
  number : nat;
  total : nat
}.

Definition footer_text (s : Slide) : string :=
  string_of_nat (number s) +:+ " / " +:+ string_of_nat (total s).

(** [str(x)] of an optional string inside an f-string. *)
Definition py_str (x : option string) : string :=
  match x with Some s => s | None => "None" end.

Definition _ppt_add_title_slide (title_text : string) (slide_idx tot : nat) : Slide :=
  mkSlide (TitleSlide title_text "Powerhouse Dashboard — PETPAK & GPAK") slide_idx tot.

Definition ppt_preset : Preset := mkPreset 2 (Some (1280, 720)%N).
Definition ppt_preset_default : Preset := mkPreset 1 None.

(** The image is rendered at 1280x720, scale 2; when that raises, with
    plotly's defaults, and a second failure is not caught. *)
Definition _ppt_add_graph_slide (E : Env) (fig : Figure) (caption : option string)
    (slide_idx tot : nat) : result Slide :=
  let! png :=
    match to_image E fig ppt_preset with
    | Some p => Ok p
    | None => lib_call "to_image" (to_image E fig ppt_preset_default)
    end in
  Ok (mkSlide (GraphSlide caption png) slide_idx tot).

Definition _ppt_add_explain_slide (caption : option string) (bullets : list string)
    (slide_idx tot : nat) : Slide :=
  let bullets := match bullets with [] => ["No data available."] | _ => bullets end in
  mkSlide (ExplainSlide (py_str caption +:+ " — Explanation")
                        (map (fun t => "• " +:+ t) (firstn 14 bullets)))
          slide_idx tot.

(** The finite values of [tr.y]; empty when the conversion raises. *)
Definition finite_values (E : Env) (tr : Trace) : list fnum :=
  match np_asarray_float E (ty tr) with
  | Some arr => List.filter (fun v => isfinite v) arr
  | None => []
  end.

(** [y[-1]] *)
Definition last_value (y : list fnum) : fnum := List.last y NaN.

(** [(y[-1] - y[-2]) if y.size > 1 else 0.0] *)
Definition last_delta (y : list fnum) : fnum :=
  match rev y with
  | a :: b :: _ => fsub a b
  | _ => Fin 0
  end.

(** [y.mean()] of a non-empty array of finite values. *)
Definition array_mean (y : list fnum) : fnum :=
  fdiv_count (fold_left fadd y (Fin 0)) (List.length y).

(** The point that one trace contributes: the body of the loop over
    [fig.data] in [_figure_summary_points]. *)
Definition trace_point (E : Env) (tr : Trace) : string :=
  let name := name_or tr "Series" in
  let y := finite_values E tr in
  match y with
  | [] => name +:+ ": values shown; insufficient numeric history for stats."
  | _ :: _ =>
      let last := last_value y in
      let mean := array_mean y in
      let mn := series_min y in
      let mx := series_max y in
      let delta := last_delta y in
      name +:+ ": latest " +:+ py_format_f false true 0 last +:+
      " (Δ " +:+ py_format_f true true 0 delta +:+ "); " +:+
      "avg " +:+ py_format_f false true 0 mean +:+
      ", range " +:+ py_format_f false true 0 mn +:+ "–" +:+
      py_format_f false true 0 mx +:+ "."
  end.

(** The optional first point, [f"Overview: {title.text}"]. *)
Definition overview_points (fig : Figure) : list string :=
  match layout fig with
  | Some l =>
      match title l with
      | Some t =>
          match text t with
          | Some s => if String.eqb s "" then [] else ["Overview: " +:+ s]
          | None => []
          end
      | None => []
      end
  | None => []
  end.

Definition filler_point : string :=
  "No significant variability detected; continue monitoring.".

Definition _figure_summary_points (E : Env) (fig : Figure) : list string :=
  let pts := overview_points fig ++ map (trace_point E) (data fig) in
  if Nat.ltb (List.length pts) 2 then pts ++ [filler_point] else pts.

Definition conclusion_points : list string :=
  [ "Sustain reliability by addressing sources with highest month-to-month variance.";
    "Prioritize solar utilization in months with favorable yield and tariff differentials.";
    "Investigate outliers in PKR/kWh and kWh/kg to identify maintenance or efficiency actions.";
    "Share this deck with operations; align next month’s targets to the median of the last 6 months." ].

Definition _ppt_add_conclusion (points : list string) (slide_idx tot : nat) : Slide :=
  mkSlide (ConclusionSlide "Conclusion & Recommendations"
                           (map (fun t => "• " +:+ t) points))
          slide_idx tot.

(** [fig.layout.title.text if fig.layout and fig.layout.title else title_text] *)
Definition caption_of (fig : Figure) (title_text : string) : option string :=
  match layout fig with
  | Some l =>
      match title l with
      | Some t => text t
      | None => Some title_text
      end
  | None => Some title_text
  end.

(** The loop over [figs] of [build_section_ppt_brand]: two slides per
    chart, [idx] advanced by one after each; returns the slides and the
    next index. *)
Fixpoint chart_slides (E : Env) (title_text : string) (figs : list Figure)
    (idx tot : nat) : result (list Slide * nat) :=
  match figs with
  | [] => Ok ([], idx)
  | fig :: rest =>
      let caption := caption_of fig title_text in
      let! g := _ppt_add_graph_slide E fig caption idx tot in
      let e := _ppt_add_explain_slide caption (_figure_summary_points E fig)
                 (idx + 1) tot in
      let! more := chart_slides E title_text rest (idx + 2) tot in
      Ok (g :: e :: fst more, snd more)
  end.

Definition pptx_missing : exn :=
  RuntimeError "python-pptx not installed. Please run: pip install python-pptx".

Definition build_section_ppt_brand (E : Env) (r : Registry)
    (section_name title_text : string) : result (list Slide) :=
  if negb (_PPTX_OK E) then Raise pptx_missing
  else
    let figs := get_figs r section_name in
    let tot := 1 + 2 * List.length figs + 1 in
    let idx := 1 in
    let s0 := _ppt_add_title_slide title_text idx tot in
    let idx := idx + 1 in
    let! mid := chart_slides E title_text figs idx tot in
    let idx := snd mid in
    Ok (s0 :: fst mid ++ [_ppt_add_conclusion conclusion_points idx tot]).

(** ** Bitmap-grid PDF exporter *)

(** A rasterized chart: [(iw, ih, png)]. *)
Record Image : Type := mkImage {
  iw : N;
  ih : N;
  png_bytes : Png
}.

(** An image drawn in the cell of row [row] and column [col]. *)
Record Placement : Type := mkPlacement {
  row : nat;
  col : nat;
  image : Image
}.

(** The single page of a section export.  Header, logos and the exact
    coordinates are left out: they depend on the page constants only. *)
Record Page : Type := mkPage {
  page_title : string;
  card_rows : list (string * list Card);   (* group title, tiles of the row *)
  grid : option (nat * nat);               (* columns, rows; None without charts *)
  placed : list Placement
}.

(** The five presets of the first chain, and the small one used when the
    rendered bitmap cannot be read back. *)
Definition preset1 : Preset := mkPreset 7 (Some (6000, 3600)%N).
Definition preset2 : Preset := mkPreset 6 (Some (5500, 3400)%N).
Definition preset3 : Preset := mkPreset 5 (Some (5000, 3000)%N).
Definition preset4 : Preset := mkPreset 4 (Some (4500, 2800)%N).
Definition preset5 : Preset := mkPreset 3 (Some (4000, 2500)%N).
Definition preset_fallback : Preset := mkPreset 1 (Some (1200, 700)%N).

(** The nested [try]/[except] chain around [pio.to_image]: each of the
    first four presets hands over to the next when it raises; the fifth
    call stands in the last [except] branch, outside any [try]. *)
Definition render_png (E : Env) (fig : Figure) : result Png :=
  match to_image E fig preset1 with
  | Some p => Ok p
  | None =>
    match to_image E fig preset2 with
    | Some p => Ok p
    | None =>
      match to_image E fig preset3 with
      | Some p => Ok p
      | None =>
        match to_image E fig preset4 with
        | Some p => Ok p
        | None => lib_call "to_image" (to_image E fig preset5)
        end
      end
    end
  end.

(** One iteration of the loop over [figs]: [Ok (Some img)] appends to
    [images], [Ok None] is the [continue] of the last handler, [Raise]
    leaves the function. *)
Definition rasterize (E : Env) (fig : Figure) : result (option Image) :=
  let! png := render_png E fig in
  match image_size E png with
  | Some (w, h) => Ok (Some (mkImage w h png))
  | None =>
      match to_image E fig preset_fallback with
      | Some png_fallback =>
          match image_size E png_fallback with
          | Some (w, h) => Ok (Some (mkImage w h png_fallback))
          | None => Ok None
          end
      | None => Ok None
      end
  end.

Fixpoint rasterize_all (E : Env) (figs : list Figure) : result (list Image) :=
  match figs with
  | [] => Ok []
  | fig :: rest =>
      let! o := rasterize E fig in
      let! more := rasterize_all E rest in
      Ok (match o with Some img => img :: more | None => more end)
  end.

(** The [if]/[elif] chain on [n = len(images)]: columns, rows. *)
Definition grid_shape (n : nat) : nat * nat :=
  if Nat.eqb n 1 then (1, 1)
  else if Nat.eqb n 2 || Nat.eqb n 3 then (2, 2)
  else if Nat.eqb n 4 then (2, 2)
  else if Nat.eqb n 5 || Nat.eqb n 6 then (3, 2)
  else if Nat.eqb n 7 || Nat.eqb n 8 || Nat.eqb n 9 then (3, 3)
  else (3, 3).

(** The inner loop [for ccol in range(cols)], from column [ccol] with
    [todo] columns left; [break]s once [idx >= n].  Returns the
    placements of the row and the next [idx]. *)
Fixpoint place_row (images : list Image) (r : nat) (todo ccol idx : nat)
    : list Placement * nat :=
  match todo with
  | O => ([], idx)
  | S todo' =>
      match nth_error images idx with
      | None => ([], idx)                                   (* idx >= n: break *)
      | Some img =>
          let (ps, idx') := place_row images r todo' (S ccol) (S idx) in
          (mkPlacement r ccol img :: ps, idx')
      end
  end.

(** The outer loop [for r in range(rows)]. *)
Fixpoint place_rows (images : list Image) (cols : nat) (todo r idx : nat)
    : list Placement :=
  match todo with
  | O => []
  | S todo' =>
      let (ps, idx') := place_row images r cols 0 idx in
      ps ++ place_rows images cols todo' (S r) idx'
  end.

(** The card rows: groups without cards are skipped. *)
Definition card_rows_of (groups : list CardGroup) : list (string * list Card) :=
  map (fun g => (group_title g, cards g))
      (List.filter (fun g => negb (Nat.eqb (List.length (cards g)) 0)) groups).

Definition build_section_pdf (E : Env) (r : Registry)
    (section_name title_text : string) : result Page :=
  let figs := get_figs r section_name in
  let cards_data := get_cards r section_name in
  let rows_of_cards := card_rows_of cards_data in
  match figs with
  | [] => Ok (mkPage title_text rows_of_cards None [])
  | _ :: _ =>
      let! images := rasterize_all E figs in
      let n := List.length images in
      let (cols, rows) := grid_shape n in
      Ok (mkPage title_text rows_of_cards (Some (cols, rows))
                 (place_rows images cols rows 0 0))
  end.

(** ** Consolidated report *)

(** The module-level [section_order] that [build_report_pdf_same_style]
    iterates over (its own [consolidated_sections] holds the same names and
    is not read). *)
Definition section_order : list string :=
  [ "Overview"; "Energy Sources"; "Solar Savings"; "Expenses";
    "Production vs Consumption"; "Gas Consumption"; "Comparison" ].

Definition no_charts_found : exn :=
  RuntimeError "No charts found to export. Open tabs once, or ensure SECTION_FIGS is populated.".

(** The loop over the sections; the pages appended to the writer. *)
Fixpoint report_pages (E : Env) (r : Registry) (secs : list string)
    : result (list Page) :=
  match secs with
  | [] => Ok []
  | sec :: rest =>
      match get_figs r sec with
      | [] => report_pages E r rest                        (* continue *)
      | _ :: _ =>
          let! page := build_section_pdf E r sec (sec +:+ " — Powerhouse Dashboard") in
          let! more := report_pages E r rest in
          Ok (page :: more)
      end
  end.

Definition build_report_pdf_same_style (E : Env) (r : Registry)
    (title_text : string) : result (list Page) :=
  if negb (_PDF_MERGE_OK E) then Raise (LibraryError "NameError: PdfWriter")
  else
    let! pages := report_pages E r section_order in
    match pages with
    | [] => Raise no_charts_found
    | _ :: _ => Ok pages
    end.

(** [_report_collect_figs()]: the charts of the "Report" section when it
    has any, else those of the consolidated sections in order, each paired
    with its section name. *)
Definition _report_collect_figs (r : Registry) : list (string * Figure) :=
  match get_figs r "Report" with
  | (_ :: _) as figs_report => map (fun f => ("Report", f)) figs_report
  | [] => flat_map (fun sec => map (fun f => (sec, f)) (get_figs r sec)) section_order
  end.

(** ** Vocabulary of the statements *)

(** Two registries agree on a section when the current-section slot and the
    two lists of that section coincide. *)
Definition agree_on (name : string) (r1 r2 : Registry) : Prop :=
  CURRENT_SECTION r1 = CURRENT_SECTION r2 /\
  get_figs r1 name = get_figs r2 name /\
  get_cards r1 name = get_cards r2 name.

(** Provenance: what a list of commands can put into a section. *)
Definition captured_fig_in (cs : list command) (f : Figure) : Prop :=
  In (CaptureFig f) cs.

Definition captured_cards_in (cs : list command) (g : CardGroup) : Prop :=
  In (CaptureCards (cards g) (group_title g)) cs.

Inductive slide_kind : Type := KTitle | KGraph | KExplain | KConclusion.

Definition kind_of (s : Slide) : slide_kind :=
  match body s with
  | TitleSlide _ _ => KTitle
  | GraphSlide _ _ => KGraph
  | ExplainSlide _ _ => KExplain
  | ConclusionSlide _ _ => KConclusion
  end.

(** A chart can be rendered for a slide: one of the two calls of
    [_ppt_add_graph_slide] returns. *)
Definition renders_for_slide (E : Env) (fig : Figure) : Prop :=
  to_image E fig ppt_preset <> None \/ to_image E fig ppt_preset_default <> None.

(** The renderer rejects a chart at each of the five presets of the chain. *)
Definition rejected_by_chain (E : Env) (fig : Figure) : Prop :=
  to_image E fig preset1 = None /\ to_image E fig preset2 = None /\
  to_image E fig preset3 = None /\ to_image E fig preset4 = None /\
  to_image E fig preset5 = None.

(** The first chain as a list, and the first preset of a list at which the
    renderer returns. *)
Definition preset_chain : list Preset :=
  [preset1; preset2; preset3; preset4; preset5].

Fixpoint first_rendered (E : Env) (fig : Figure) (chain : list Preset) : option Png :=
  match chain with
  | [] => None
  | p :: rest =>
      match to_image E fig p with
      | Some png => Some png
      | None => first_rendered E fig rest
      end
  end.

(** The list that [_describe_trace] hands to [pd.to_numeric], when it
    reaches that call. *)
Definition coerced_input (tr : Trace) : option (list pyval) :=
  if String.eqb (ttype tr) "pie" then
    if negb (Nat.eqb (List.length (tlabels tr)) 0) &&
       negb (Nat.eqb (List.length (tvalues tr)) 0)
    then Some (tvalues tr) else None
  else if negb (Nat.eqb (List.length (ty tr)) 0) then Some (ty tr) else None.

(** The coercion of a trace's data raises. *)
Definition coercion_raises (E : Env) (tr : Trace) : Prop :=
  exists l, coerced_input tr = Some l /\ pd_to_numeric E l = None.

(** The sentence of a trace, empty when generation raises. *)
Definition sentence_of (E : Env) (tr : Trace) : string :=
  match _describe_trace E tr with
  | Ok s => s
  | Raise _ => ""
  end.

(** The paragraphs of one figure when every sentence is generated. *)
Definition figure_paragraphs (E : Env) (idx : nat) (fig : Figure) : list Paragraph :=
  let ftitle := or_else (layout_title_text fig) ("Figure " +:+ string_of_nat idx) in
  let h := HeadingPara (string_of_nat idx +:+ ". " +:+ ftitle) in
  match data fig with
  | [] => [h; BodyPara "• No chart data available for this figure."]
  | traces =>
      h :: map (fun tr => BodyPara ("• " +:+ sentence_of E tr)) traces
        ++ [BodyPara stacked_note]
  end.

(** The paragraphs of the figures when every sentence is generated,
    numbered from [idx]. *)
Fixpoint document_body (E : Env) (idx : nat) (figs : list Figure) : list Paragraph :=
  match figs with
  | [] => []
  | fig :: rest => figure_paragraphs E idx fig ++ document_body E (S idx) rest
  end.



(** No character of the text is a decimal point. *)
Definition no_decimal_point (s : string) : Prop :=
  ~ In "."%char (list_ascii_of_string s).

(** The sentence of a numeric trace, with its seven slots. *)
Definition numeric_sentence (name peak peak_month low low_month avg tot : string)
    : string :=
  name +:+ ": peak " +:+ peak +:+ " in " +:+ peak_month +:+
  ", lowest " +:+ low +:+ " in " +:+ low_month +:+
  ", average " +:+ avg +:+ ", total " +:+ tot +:+ ".".

Definition is_digit (c : ascii) : bool :=
  Nat.leb 48 (nat_of_ascii c) && Nat.leb (nat_of_ascii c) 57.

(** Digits and commas only. *)
Definition is_digit_or_comma (c : ascii) : bool :=
  is_digit c || Ascii.eqb c ","%char.





(** ** Binary64 rounding and numeric text *)

(** [2^e] for an integer exponent. *)
Definition pow2 (e : Z) : Q :=
  if (0 <=? e)%Z then inject_Z (2 ^ e) else 1 # Z.to_pos (2 ^ (- e)).

(** The exponent [e] with [2^e <= n/d < 2^(e+1)], for positive [n] and [d]. *)
Definition floor_log2 (n d : Z) : Z :=
  let e0 := (Z.log2 n - Z.log2 d)%Z in
  if (d * 2 ^ Z.max 0 e0 <=? n * 2 ^ Z.max 0 (- e0))%Z then e0 else (e0 - 1)%Z.

(** The double nearest to [q], ties to even: 53 significant bits, exponents
    down to the subnormal step [2^-1074], an infinity from [2^1024] on.
    This is what [float(n)] makes of an int that fits, and what a float
    operation makes of its exact result. *)
Definition double_round (q : Q) : fnum :=
  let n := Z.abs (Qnum q) in
  let d := Z.pos (Qden q) in
  if (n =? 0)%Z then Fin 0
  else
    let e := floor_log2 n d in
    let u := Z.max (e - 52) (-1074) in
    let m := round_half_even (n * 2 ^ Z.max 0 (- u)) (d * 2 ^ Z.max 0 u) in
    let neg := (Qnum q <? 0)%Z in
    if (0 <=? u)%Z && (2 ^ 1024 <=? m * 2 ^ u)%Z
    then (if neg then NInf else PInf)
    else
      let v := Qred (inject_Z m * pow2 u) in
      Fin (if neg then - v else v).

(** A finite number that no double holds: it can only be a Python int such
    as [10**400], and converting it to a float raises [OverflowError]. *)
Definition exceeds_double (v : fnum) : bool :=
  match v with
  | Fin q => negb (isfinite (double_round q))
  | _ => false
  end.

Definition is_space (c : ascii) : bool :=
  let n := nat_of_ascii c in Nat.eqb n 32 || (Nat.leb 9 n && Nat.leb n 13).

Fixpoint lstrip (l : list ascii) : list ascii :=
  match l with
  | c :: rest => if is_space c then lstrip rest else l
  | [] => []
  end.

Definition strip (l : list ascii) : list ascii := rev (lstrip (rev (lstrip l))).

Definition to_lower (c : ascii) : ascii :=
  let n := nat_of_ascii c in
  if Nat.leb 65 n && Nat.leb n 90 then ascii_of_nat (n + 32) else c.

Definition digit_value (c : ascii) : Z := Z.of_nat (nat_of_ascii c - 48).

Definition is_decimal_digit (c : ascii) : bool :=
  let n := nat_of_ascii c in Nat.leb 48 n && Nat.leb n 57.

(** The leading digits of [l]: their value after [acc], their number, the rest. *)
Fixpoint take_digits (l : list ascii) (acc : Z) (count : nat)
    : Z * nat * list ascii :=
  match l with
  | c :: rest =>
      if is_decimal_digit c
      then take_digits rest (10 * acc + digit_value c)%Z (S count)
      else (acc, count, l)
  | [] => (acc, count, [])
  end.

Definition take_sign (l : list ascii) : bool * list ascii :=
  match l with
  | "-"%char :: rest => (true, rest)
  | "+"%char :: rest => (false, rest)
  | _ => (false, l)
  end.

(** The number that a text cell denotes: surrounding blanks, a sign, then
    [inf], [infinity], [nan], or digits with an optional fraction and
    exponent.  [None] for any other text. *)
Definition parse_number (s : string) : option fnum :=
  let (neg, body) := take_sign (strip (list_ascii_of_string s)) in
  let name := string_of_list_ascii (map to_lower body) in
  if String.eqb name "inf" || String.eqb name "infinity"
  then Some (if neg then NInf else PInf)
  else if String.eqb name "nan" then Some NaN
  else
    let '(ip, n1, rest1) := take_digits body 0 0 in
    let '(fp, n2, rest2) :=
      match rest1 with
      | "."%char :: r => take_digits r 0 0
      | _ => (0%Z, 0, rest1)
      end in
    if Nat.eqb (n1 + n2) 0 then None
    else
      let mant := (ip * 10 ^ Z.of_nat n2 + fp)%Z in
      let finish (ex : Z) : option fnum :=
        let e10 := (ex - Z.of_nat n2)%Z in
        let q := if (0 <=? e10)%Z then inject_Z (mant * 10 ^ e10)
                 else mant # Z.to_pos (10 ^ (- e10)) in
        Some (double_round (if neg then - q else q)) in
      match rest2 with
      | [] => finish 0%Z
      | c :: r =>
          if Ascii.eqb (to_lower c) "e"%char
          then
            let (eneg, r') := take_sign r in
            let '(ev, n3, rest3) := take_digits r' 0 0 in
            match n3, rest3 with
            | S _, [] => finish (if eneg then - ev else ev)%Z
            | _, _ => None
            end
          else None
      end.

(** ** Sample data *)

(** One cell under [pd.to_numeric(..., errors="coerce")]: a number is kept,
    [None], text that is no number and any other object become NaN, numeric
    text is parsed.  [None] when the conversion raises: an int beyond the
    range of a double ([OverflowError]). *)
Definition coerce_cell (c : pyval) : option fnum :=
  match c with
  | PyFloat v => if exceeds_double v then None else Some v
  | PyNone => Some NaN
  | PyStr s =>
      match parse_number s with
      | Some v => Some v
      | None => Some NaN
      end
  | PyObj _ => Some NaN
  end.

(** One cell under [np.asarray(..., dtype=float)]: a number is kept, [None]
    becomes NaN, numeric text is parsed.  [None] when the conversion raises:
    text that is no number, any other object, an int beyond the range of a
    double. *)
Definition float_cell (c : pyval) : option fnum :=
  match c with
  | PyFloat v => if exceeds_double v then None else Some v
  | PyNone => Some NaN
  | PyStr s => parse_number s
  | PyObj _ => None
  end.

Fixpoint traverse {A B : Type} (f : A -> option B) (l : list A) : option (list B) :=
  match l with
  | [] => Some []
  | a :: rest =>
      match f a, traverse f rest with
      | Some b, Some bs => Some (b :: bs)
      | _, _ => None
      end
  end.

Definition fig_title (fig : Figure) : string := or_else (layout_title_text fig) "".

(** An environment built from a renderer and an image reader; the two
    array conversions work cell by cell and raise as soon as one cell does. *)
Definition env_with (render : Figure -> Preset -> option Png)
    (read : Png -> option (N * N)) : Env :=
  {| _DOCX_OK := true; _PPTX_OK := true; _PDF_MERGE_OK := true;
     pd_to_numeric := traverse coerce_cell;
     np_asarray_float := traverse float_cell;
     to_image := render;
     image_size := read |}.

Definition png_of (fig : Figure) (p : Preset) : Png :=
  fig_title fig +:+ "@" +:+ NilZero.string_of_uint (N.to_uint (scale p)).

(** Everything renders and reads back. *)
Definition sample_env : Env :=
  env_with (fun fig p => Some (png_of fig p)) (fun _ => Some (1200, 700)%N).

(** The renderer refuses the chart titled "oversized" at every preset. *)
Definition rejecting_env : Env :=
  env_with (fun fig p => if String.eqb (fig_title fig) "oversized" then None
                         else Some (png_of fig p))
           (fun _ => Some (1200, 700)%N).

(** The renderer refuses every chart at scales 7 and 6. *)
Definition env_two_presets_fail : Env :=
  env_with (fun fig p => if N.leb 6 (scale p) then None else Some (png_of fig p))
           (fun _ => Some (1200, 700)%N).

Definition num (z : Z) : pyval := PyFloat (Fin (inject_Z z)).

Definition line_trace (name : string) (xs : list xval) (ys : list pyval) : Trace :=
  mkTrace "scatter" (Some name) xs ys [] [].

Definition titled (t : string) (traces : list Trace) : Figure :=
  mkFigure (Some (mkLayout (Some (mkTitle (Some t))))) traces.

Definition months_2024 : list xval := [XDate 2024 Jan; XDate 2024 Feb; XDate 2024 Mar].

Definition solar_trace : Trace := line_trace "Solar" months_2024 [num 10; num 50; num 30].


(** A trace with the int [10**400] among its y values. *)
Definition broken_trace : Trace :=
  line_trace "Gas" months_2024 [num 1; num (10 ^ 400); num 3].



Definition chart (t : string) : Figure := titled t [solar_trace].

(** A section whose only chart has a trace whose coercion raises. *)
Definition broken_registry : Registry :=
  run [Begin "Overview"; CaptureFig (titled "Energy mix" [solar_trace; broken_trace])]
      initial_registry.

Definition ten_charts : list Figure :=
  map chart ["c1"; "c2"; "c3"; "c4"; "c5"; "c6"; "c7"; "c8"; "c9"; "c10"].

Definition registry_of (sec : string) (figs : list Figure) : Registry :=
  run (Begin sec :: map CaptureFig figs) initial_registry.

(** What [sample_env] makes of [ten_charts]: every chart at the first preset. *)
Definition ten_images : list Image :=
  map (fun f => mkImage 1200 700 (png_of f preset1)) ten_charts.


(** ** Palettes, column lookup and safe division *)

Definition ORANGE_DARK : string := "#C84B1A".
Definition ORANGE_MAIN : string := "#FF6A2C".
Definition ORANGE_LIGHT : string := "#FFA366".
Definition BLUE_DARK : string := "#0D2147".
Definition BLUE_MAIN : string := "#1E3A8A".
Definition BLUE_LIGHT : string := "#8EA6E8".
Definition GAS_CRIMSON : string := "#E11D48".
Definition LESCO_TEAL : string := "#0EA5A7".
Definition SOLAR_GOLD : string := "#F59E0B".
Definition PURPLE : string := "#8B5CF6".
Definition TEAL : string := "#14B8A6".
Definition CYAN : string := "#06B6D4".
Definition SLATE : string := "#334155".

(** The [if]/[elif] chain of [brand_palette] that selects [base]. *)
Definition palette_base (context : string) : list string :=
  if String.eqb context "petpak_engine" then [ORANGE_MAIN; ORANGE_DARK; ORANGE_LIGHT]
  else if String.eqb context "gpak_engine_1" then [BLUE_MAIN; BLUE_DARK; BLUE_LIGHT]
  else if String.eqb context "gpak_engine_2" then [BLUE_LIGHT; BLUE_MAIN]
  else if String.eqb context "solar_pg" then [ORANGE_MAIN; BLUE_MAIN]
  else if String.eqb context "lesco" then [SLATE]
  else if String.eqb context "expenses" then [LESCO_TEAL; GAS_CRIMSON; PURPLE; CYAN]
  else if String.eqb context "avg_cost" then ["#DC2626"]
  else if String.eqb context "mix" then [CYAN; TEAL; SOLAR_GOLD]
  else [PURPLE; TEAL; ORANGE_MAIN; BLUE_MAIN; CYAN; SLATE].

(** [l * k] on a Python list: [k] copies, none when [k <= 0]. *)
Definition py_list_mul {A : Type} (l : list A) (k : Z) : list A :=
  List.concat (List.repeat l (Z.to_nat k)).

(** [l[:n]]: the first [n] elements, or all but the last [-n] when [n] is
    negative. *)
Definition py_slice_to {A : Type} (l : list A) (n : Z) : list A :=
  if (n <? 0)%Z then firstn (Z.to_nat (Z.of_nat (List.length l) + n)) l
  else firstn (Z.to_nat n) l.

Definition brand_palette (context : string) (n : Z) : list string :=
  let base := palette_base context in
  let len := Z.of_nat (List.length base) in
  if (len <? n)%Z then py_slice_to (py_list_mul base (n / len + 1)) n
  else py_slice_to base n.

(** [cand in cols] *)
Definition in_list (x : string) (l : list string) : bool :=
  existsb (String.eqb x) l.

(** [{c.lower(): c for c in cols}]: a later column replaces an earlier one
    with the same lower-case form. *)
Definition lower_map_of (lower : string -> string) (cols : list string)
    : gmap string string :=
  fold_left (fun m c => <[lower c := c]> m) cols ∅.

(** The loop over [candidates] of [pick_col_name]. *)
Fixpoint pick_from (lower : string -> string) (cols : list string)
    (lower_map : gmap string string) (candidates : list string) : option string :=
  match candidates with
  | [] => None
  | cand :: rest =>
      if in_list cand cols then Some cand
      else match lower_map !! lower cand with
           | Some c => Some c
           | None => pick_from lower cols lower_map rest
           end
  end.

(** [pick_col_name(cols, candidates)]; [str.lower] is the parameter [lower]. *)
Definition pick_col_name (lower : string -> string) (cols candidates : list string)
    : option string :=
  pick_from lower cols (lower_map_of lower cols) candidates.

(** [_value_text(v)]: the label put on a bar or a point. *)
Definition _value_text (v : pyval) : string :=
  match v with
  | PyFloat x =>
      if isnan x then ""
      else if fleb (Fin 1000) (fabs x) then py_format_f false true 0 x
      else py_format_f false false 2 x
  | _ => ""
  end.

(** Sign of a finite value: [Gt], [Eq] or [Lt] as it is above, at or below 0. *)
Definition qsign (q : Q) : comparison := (Qnum q ?= 0)%Z.

Definition fneg (a : fnum) : fnum :=
  match a with
  | Fin x => Fin (- x)
  | PInf => NInf
  | NInf => PInf
  | NaN => NaN
  end.

(** An infinity divided by a finite value other than zero. *)
Definition inf_over (inf : fnum) (q : Q) : fnum :=
  match qsign q with
  | Gt => inf
  | Lt => fneg inf
  | Eq => NaN
  end.

(** [a / b] on floats, for a divisor that is neither zero nor NaN: the
    exact quotient of two finite values rounded to the nearest double. *)
Definition fdiv (a b : fnum) : fnum :=
  match a, b with
  | NaN, _ | _, NaN => NaN
  | Fin x, Fin y => double_round (x / y)
  | Fin _, _ => Fin 0
  | PInf, Fin y => inf_over PInf y
  | NInf, Fin y => inf_over NInf y
  | _, _ => NaN
  end.

(** What [float(x)] does inside the [try] of [safe_div]. *)
Inductive float_outcome : Type :=
| Converted (v : fnum)
| Rejected        (* TypeError or ValueError: caught *)
| Overflow.       (* OverflowError: not caught *)

(** [float(x)]: a float is itself and an int becomes the nearest double,
    unless no double is near enough; text goes through Python's parser of
    float literals, the parameter [str_to_float] ([None] when it raises
    [ValueError]); [None] and containers raise [TypeError]. *)
Definition py_float (str_to_float : string -> option fnum) (x : pyval)
    : float_outcome :=
  match x with
  | PyFloat v =>
      if exceeds_double v then Overflow
      else Converted (match v with Fin q => double_round q | _ => v end)
  | PyStr s =>
      match str_to_float s with
      | Some v => Converted v
      | None => Rejected
      end
  | PyNone | PyObj _ => Rejected
  end.

Definition is_zero (b : fnum) : bool :=
  match b with
  | Fin y => Qeq_bool y 0
  | _ => false
  end.

Inductive div_outcome : Type :=
| Returns (v : fnum)
| RaisesOverflowError.

(** [safe_div(a, b)]: the two conversions in order inside the [try], then
    the test on the divisor, then the division. *)
Definition safe_div (str_to_float : string -> option fnum) (a b : pyval)
    : div_outcome :=
  match py_float str_to_float a with
  | Overflow => RaisesOverflowError
  | Rejected => Returns NaN
  | Converted x =>
      match py_float str_to_float b with
      | Overflow => RaisesOverflowError
      | Rejected => Returns NaN
      | Converted y =>
          if is_zero y || isnan y then Returns NaN else Returns (fdiv x y)
      end
  end.

(** [_series_stats(values)]: minimum, maximum, mean and sum of the values
    left after coercion and [dropna()], four [None] when nothing is left. *)
Definition _series_stats (E : Env) (values : list pyval)
    : result (option fnum * option fnum * option fnum * option fnum) :=
  let! s := lib_call "to_numeric" (pd_to_numeric E values) in
  let arr := dropna s in
  match arr with
  | [] => Ok (None, None, None, None)
  | _ :: _ =>
      Ok (Some (series_min arr), Some (series_max arr),
          Some (series_mean arr), Some (series_sum arr))
  end.

(** ** Consolidated narrative and deck

    [build_report_docx] and [build_report_ppt_brand] are each defined
    twice in the module; the later definitions, modelled here, are the ones
    in effect. *)

(** A paragraph of the consolidated document: a section heading (bold,
    14 pt) or a paragraph as in a section document. *)
Inductive ReportParagraph : Type :=
| SectionHeading (sec : string)
| Para (p : Paragraph).

(** [fig.layout.title.text if fig.layout and fig.layout.title else
    f"{sec} — Figure {idx}"]; there is no [or] here, a title without text
    stays [None]. *)
Definition report_figure_title (sec : string) (idx : nat) (fig : Figure)
    : option string :=
  match layout fig with
  | Some l =>
      match title l with
      | Some t => text t
      | None => Some (sec +:+ " — Figure " +:+ string_of_nat idx)
      end
  | None => Some (sec +:+ " — Figure " +:+ string_of_nat idx)
  end.

Definition report_stacked_note : string :=
  "• For stacked bars, combined totals are labeled on top where applicable.".

Definition report_figure_block (E : Env) (sec : string) (idx : nat) (fig : Figure)
    : result (list Paragraph) :=
  let h := HeadingPara (string_of_nat idx +:+ ". " +:+
                        py_str (report_figure_title sec idx fig)) in
  match data fig with
  | [] => Ok [h; BodyPara "• No chart data available for this figure."]
  | traces =>
      let! bullets := trace_bullets E traces in
      Ok (h :: bullets ++ [BodyPara report_stacked_note])
  end.

Fixpoint report_figure_blocks (E : Env) (sec : string) (idx : nat)
    (figs : list Figure) : result (list Paragraph) :=
  match figs with
  | [] => Ok []
  | fig :: rest =>
      let! b := report_figure_block E sec idx fig in
      let! more := report_figure_blocks E sec (S idx) rest in
      Ok (b ++ more)
  end.

(** The loop over [section_order]: a section without charts adds nothing. *)
Fixpoint report_section_blocks (E : Env) (r : Registry) (secs : list string)
    : result (list ReportParagraph) :=
  match secs with
  | [] => Ok []
  | sec :: rest =>
      match get_figs r sec with
      | [] => report_section_blocks E r rest
      | figs =>
          let! blocks := report_figure_blocks E sec 1 figs in
          let! more := report_section_blocks E r rest in
          Ok (SectionHeading sec :: map Para blocks ++ more)
      end
  end.

Definition build_report_docx (E : Env) (r : Registry) (title_text : string)
    : result (list ReportParagraph) :=
  if negb (_DOCX_OK E) then Raise docx_missing
  else
    let! blocks := report_section_blocks E r section_order in
    Ok (Para (TitlePara title_text) :: Para (BodyPara (_intro_for_section title_text)) ::
        blocks ++ [Para (BodyPara _outro_note)]).

(** The flattened list of [(sec, fig)] pairs of the consolidated deck. *)
Definition report_figs (r : Registry) : list (string * Figure) :=
  flat_map (fun sec => map (fun f => (sec, f)) (get_figs r sec)) section_order.

(** [fig.layout.title.text if fig.layout and fig.layout.title else sec] *)
Definition report_caption_of (sec : string) (fig : Figure) : option string :=
  caption_of fig sec.

Fixpoint report_chart_slides (E : Env) (figs : list (string * Figure))
    (idx tot : nat) : result (list Slide * nat) :=
  match figs with
  | [] => Ok ([], idx)
  | (sec, fig) :: rest =>
      let caption := report_caption_of sec fig in
      let! g := _ppt_add_graph_slide E fig caption idx tot in
      let e := _ppt_add_explain_slide caption (_figure_summary_points E fig)
                 (idx + 1) tot in
      let! more := report_chart_slides E rest (idx + 2) tot in
      Ok (g :: e :: fst more, snd more)
  end.

Definition report_conclusion_points : list string :=
  [ "Sustain reliability by addressing sources with the highest variance.";
    "Prioritize solar utilization where yield and tariff differentials are favorable.";
    "Investigate cost outliers (₨/kWh) and kWh/kg to spot efficiency opportunities.";
    "Align next month’s targets to the median of the trailing six months." ].

Definition build_report_ppt_brand (E : Env) (r : Registry) (title_text : string)
    : result (list Slide) :=
  if negb (_PPTX_OK E) then Raise pptx_missing
  else
    match report_figs r with
    | [] => Raise no_charts_found
    | figs =>
        let tot := 1 + 2 * List.length figs + 1 in
        let idx := 1 in
        let s0 := _ppt_add_title_slide title_text idx tot in
        let idx := idx + 1 in
        let! mid := report_chart_slides E figs idx tot in
        let idx := snd mid in
        Ok (s0 :: fst mid ++ [_ppt_add_conclusion report_conclusion_points idx tot])
    end.

(** ** Render passes *)

(** The charts and the card groups that the capture commands of a list
    hand over, in order. *)
Definition figs_of (cs : list command) : list Figure :=
  flat_map (fun c => match c with CaptureFig f => [f] | _ => [] end) cs.

Definition groups_of (cs : list command) : list CardGroup :=
  flat_map (fun c => match c with
                     | CaptureCards k t => [mkCardGroup k t]
                     | _ => []
                     end) cs.

Definition is_begin (c : command) : bool :=
  match c with Begin _ => true | _ => false end.

Definition begins (name : string) (c : command) : bool :=
  match c with Begin n => String.eqb n name | _ => false end.

(** Two registries hold the same charts and cards in every section of the
    consolidated report. *)
Definition same_report_content (r1 r2 : Registry) : Prop :=
  forall sec, In sec section_order ->
    get_figs r1 sec = get_figs r2 sec /\ get_cards r1 sec = get_cards r2 sec.


(** Two rendered tabs of the report and the forecasting tab. *)
Definition three_tab_registry : Registry :=
  run [Begin "Overview"; CaptureFig (chart "a");
       Begin "Expenses"; CaptureFig (chart "b"); CaptureFig (chart "c");
       Begin "Forecasting"; CaptureFig (chart "forecast")]
      initial_registry.

(* ===================================================================== *)
(** * Part II: properties *)
(* ===================================================================== *)

(** ** Registry *)

Lemma get_figs_begin_same name r : get_figs (begin_section name r) name = [].
Proof. unfold get_figs, begin_section; simpl. by rewrite lookup_insert_eq. Qed.

Lemma get_cards_begin_same name r : get_cards (begin_section name r) name = [].
Proof. unfold get_cards, begin_section; simpl. by rewrite lookup_insert_eq. Qed.

Lemma get_figs_begin_other name other r :
  other ≠ name -> get_figs (begin_section name r) other = get_figs r other.
Proof.
  intros Hne. unfold get_figs, begin_section; simpl.
  by rewrite lookup_insert_ne.
Qed.

Lemma get_cards_begin_other name other r :
  other ≠ name -> get_cards (begin_section name r) other = get_cards r other.
Proof.
  intros Hne. unfold get_cards, begin_section; simpl.
  by rewrite lookup_insert_ne.
Qed.

Lemma get_figs_capture_fig fig r name :
  get_figs (capture_fig fig r) name =
  if decide (name = capture_target r) then get_figs r name ++ [fig]
  else get_figs r name.
Proof.
  unfold get_figs at 1. unfold capture_fig; simpl.
  case_decide as Hd.
  - subst name. by rewrite lookup_insert_eq.
  - by rewrite lookup_insert_ne.
Qed.

Lemma get_cards_capture_fig fig r name :
  get_cards (capture_fig fig r) name = get_cards r name.
Proof. reflexivity. Qed.

Lemma get_cards_capture_cards cs t r name :
  get_cards (capture_metric_cards cs t r) name =
  if decide (name = capture_target r)
  then get_cards r name ++ [mkCardGroup cs t]
  else get_cards r name.
Proof.
  unfold get_cards at 1. unfold capture_metric_cards; simpl.
  case_decide as Hd.
  - subst name. by rewrite lookup_insert_eq.
  - by rewrite lookup_insert_ne.
Qed.

Lemma get_figs_capture_cards cs t r name :
  get_figs (capture_metric_cards cs t r) name = get_figs r name.
Proof. reflexivity. Qed.

Lemma capture_target_nonempty name r :
  name ≠ "" -> capture_target (begin_section name r) = name.
Proof.
  intros Hne. unfold capture_target; simpl.
  destruct (String.eqb_spec name ""); congruence.
Qed.

Lemma capture_target_begin_iff name r :
  capture_target (begin_section name r) = name <-> name ≠ "".
Proof.
  split; [| apply capture_target_nonempty].
  unfold capture_target; simpl.
  destruct (String.eqb_spec name "") as [-> | Hne]; [discriminate | done].
Qed.

Lemma run_app cs1 cs2 r : run (cs1 ++ cs2) r = run cs2 (run cs1 r).
Proof. unfold run. apply fold_left_app. Qed.

Lemma run_cons c cs r : run (c :: cs) r = run cs (exec c r).
Proof. reflexivity. Qed.

(** Capturing charts only never moves the current-section slot. *)
Lemma capture_target_run_figs figs r :
  capture_target (run (map CaptureFig figs) r) = capture_target r.
Proof.
  revert r. induction figs as [| f figs IH]; intros r; [done |].
  simpl map. rewrite run_cons, IH. reflexivity.
Qed.

Lemma get_figs_run_captures figs r :
  get_figs (run (map CaptureFig figs) r) (capture_target r) =
  get_figs r (capture_target r) ++ figs.
Proof.
  revert r. induction figs as [| f figs IH]; intros r.
  - simpl. by rewrite app_nil_r.
  - simpl map. rewrite run_cons.
    assert (Ht : capture_target (exec (CaptureFig f) r) = capture_target r)
      by reflexivity.
    rewrite <- Ht at 1. rewrite IH, Ht. simpl exec.
    rewrite get_figs_capture_fig. rewrite decide_True by done.
    by rewrite <- app_assoc.
Qed.

Lemma agree_on_begin name r1 r2 :
  agree_on name (begin_section name r1) (begin_section name r2).
Proof.
  split; [reflexivity |]. split.
  - by rewrite !get_figs_begin_same.
  - by rewrite !get_cards_begin_same.
Qed.

Lemma agree_on_exec name c r1 r2 :
  agree_on name r1 r2 -> agree_on name (exec c r1) (exec c r2).
Proof.
  intros (Hc & Hf & Hk).
  assert (Ht : capture_target r1 = capture_target r2)
    by (unfold capture_target; by rewrite Hc).
  destruct c as [n | f | cs t]; simpl.
  - destruct (decide (name = n)) as [-> | Hne].
    + apply agree_on_begin.
    + split; [reflexivity |]. split.
      * by rewrite !get_figs_begin_other.
      * by rewrite !get_cards_begin_other.
  - split; [exact Hc |]. split; [| exact Hk].
    rewrite !get_figs_capture_fig, Ht, Hf. done.
  - split; [exact Hc |]. split; [exact Hf |].
    rewrite !get_cards_capture_cards, Ht, Hk. done.
Qed.

Lemma agree_on_run name cs r1 r2 :
  agree_on name r1 r2 -> agree_on name (run cs r1) (run cs r2).
Proof.
  revert r1 r2. induction cs as [| c cs IH]; intros r1 r2 H; [done |].
  rewrite !run_cons. apply IH. by apply agree_on_exec.
Qed.

Lemma figs_provenance name cs r :
  Forall (captured_fig_in cs) (get_figs (run cs (begin_section name r)) name).
Proof.
  assert (H : forall pre r0,
    Forall (captured_fig_in (pre ++ cs)) (get_figs r0 name) ->
    Forall (captured_fig_in (pre ++ cs)) (get_figs (run cs r0) name)).
  { induction cs as [| c cs IH]; intros pre r0 H0; [done |].
    rewrite run_cons.
    replace (pre ++ c :: cs) with ((pre ++ [c]) ++ cs) in *
      by (by rewrite <- app_assoc).
    apply IH. destruct c as [n | f | k t]; simpl.
    - destruct (decide (name = n)) as [-> | Hne].
      + rewrite get_figs_begin_same. constructor.
      + by rewrite get_figs_begin_other.
    - rewrite get_figs_capture_fig. case_decide; [| done].
      apply Forall_app; split; [done |].
      constructor; [| constructor].
      unfold captured_fig_in. rewrite !in_app_iff. left; right; by left.
    - by rewrite get_figs_capture_cards. }
  apply (H [] (begin_section name r)).
  rewrite get_figs_begin_same. constructor.
Qed.

Lemma cards_provenance name cs r :
  Forall (captured_cards_in cs) (get_cards (run cs (begin_section name r)) name).
Proof.
  assert (H : forall pre r0,
    Forall (captured_cards_in (pre ++ cs)) (get_cards r0 name) ->
    Forall (captured_cards_in (pre ++ cs)) (get_cards (run cs r0) name)).
  { induction cs as [| c cs IH]; intros pre r0 H0; [done |].
    rewrite run_cons.
    replace (pre ++ c :: cs) with ((pre ++ [c]) ++ cs) in *
      by (by rewrite <- app_assoc).
    apply IH. destruct c as [n | f | k t]; simpl.
    - destruct (decide (name = n)) as [-> | Hne].
      + rewrite get_cards_begin_same. constructor.
      + by rewrite get_cards_begin_other.
    - by rewrite get_cards_capture_fig.
    - rewrite get_cards_capture_cards. case_decide; [| done].
      apply Forall_app; split; [done |].
      constructor; [| constructor].
      unfold captured_cards_in; simpl. rewrite !in_app_iff. left; right; by left. }
  apply (H [] (begin_section name r)).
  rewrite get_cards_begin_same. constructor.
Qed.

(** C4.  Beginning a section empties its chart list and its card-group
    list in the same step, whatever they held.  Whatever commands follow,
    the two lists of that section are the same as if the registry had been
    empty before the [begin], and every chart and card group found there was
    captured by one of those commands: nothing of an earlier pass survives,
    and charts and cards always stem from the same pass. *)
Theorem begin_section_clears_both (sec : string) (r : Registry) (cs : list command) :
  get_figs (begin_section sec r) sec = [] /\
  get_cards (begin_section sec r) sec = [] /\
  get_figs (run (Begin sec :: cs) r) sec =
    get_figs (run (Begin sec :: cs) initial_registry) sec /\
  get_cards (run (Begin sec :: cs) r) sec =
    get_cards (run (Begin sec :: cs) initial_registry) sec /\
  Forall (captured_fig_in cs) (get_figs (run (Begin sec :: cs) r) sec) /\
  Forall (captured_cards_in cs) (get_cards (run (Begin sec :: cs) r) sec).
Proof.
  split; [apply get_figs_begin_same |].
  split; [apply get_cards_begin_same |].
  rewrite !run_cons; simpl exec.
  pose proof (agree_on_run sec cs _ _ (agree_on_begin sec r initial_registry))
    as (_ & Hf & Hk).
  repeat split; [done | done | apply figs_provenance | apply cards_provenance].
Qed.

(** C5.  After [begin(S)] and N chart captures, with S the section that
    captures are attributed to, the chart list of S is exactly the N
    captured charts in call order. *)
Theorem begin_then_captures (sec : string) (r : Registry) (figs : list Figure) :
  capture_target (begin_section sec r) = sec ->
  get_figs (run (Begin sec :: map CaptureFig figs) r) sec = figs /\
  List.length (get_figs (run (Begin sec :: map CaptureFig figs) r) sec)
    = List.length figs.
Proof.
  intros Hact. rewrite run_cons; simpl exec.
  assert (H : get_figs (run (map CaptureFig figs) (begin_section sec r)) sec = figs).
  { rewrite <- Hact at 2. rewrite get_figs_run_captures, Hact.
    by rewrite get_figs_begin_same. }
  by rewrite H.
Qed.

(** With the empty name there is no active section: the capture lands in
    the "Page" bucket and the list of the empty name stays empty. *)
Example empty_name_captures_go_to_page :
  get_figs (run [Begin ""; CaptureFig (chart "a")] initial_registry) "" = [] /\
  get_figs (run [Begin ""; CaptureFig (chart "a")] initial_registry) "Page"
    = [chart "a"].
Proof. split; vm_compute; reflexivity. Qed.

(** C10.  [begin(B)] touches the two lists of B and the current-section
    slot only: the chart list and the card-group list of any other section
    are what they were. *)
Theorem begin_section_frame (A B : string) (r : Registry) :
  A ≠ B ->
  get_figs (begin_section B r) A = get_figs r A /\
  get_cards (begin_section B r) A = get_cards r A /\
  SECTION_FIGS (begin_section B r) !! A = SECTION_FIGS r !! A /\
  SECTION_CARDS (begin_section B r) !! A = SECTION_CARDS r !! A /\
  CURRENT_SECTION (begin_section B r) = B.
Proof.
  intros Hne. repeat split.
  - by apply get_figs_begin_other.
  - by apply get_cards_begin_other.
  - simpl. by rewrite lookup_insert_ne.
  - simpl. by rewrite lookup_insert_ne.
Qed.

(** ** Grid packing *)

Lemma skipn_nth_error {A : Type} (l : list A) (i : nat) (x : A) :
  nth_error l i = Some x -> skipn i l = x :: skipn (S i) l.
Proof.
  revert i. induction l as [| a l IH]; intros [| i] H; simpl in *; try discriminate.
  - by inversion H.
  - by apply IH.
Qed.

Lemma skipn_nth_error_none {A : Type} (l : list A) (i : nat) :
  nth_error l i = None -> skipn i l = [].
Proof.
  intros H. apply nth_error_None in H. by apply skipn_all2.
Qed.

Lemma firstn_firstn_skipn {A : Type} (a b : nat) (l : list A) :
  firstn a l ++ firstn b (skipn (List.length (firstn a l)) l) = firstn (a + b) l.
Proof.
  revert l. induction a as [| a IH]; intros l; simpl.
  - reflexivity.
  - destruct l as [| x l]; simpl.
    + by rewrite firstn_nil.
    + f_equal. apply IH.
Qed.

Lemma place_row_spec images r todo ccol idx :
  map image (fst (place_row images r todo ccol idx)) = firstn todo (skipn idx images) /\
  snd (place_row images r todo ccol idx)
    = idx + List.length (fst (place_row images r todo ccol idx)) /\
  Forall (fun p => row p = r /\ col p < ccol + todo)
         (fst (place_row images r todo ccol idx)).
Proof.
  revert ccol idx. induction todo as [| todo IH]; intros ccol idx; simpl.
  - split; [reflexivity |]. split; [lia | constructor].
  - destruct (nth_error images idx) as [img |] eqn:Hnth.
    + specialize (IH (S ccol) (S idx)).
      destruct (place_row images r todo (S ccol) (S idx)) as [ps idx'] eqn:Hrec.
      simpl in *. destruct IH as (Himg & Hidx & Hpos).
      rewrite (skipn_nth_error _ _ _ Hnth). simpl. rewrite Himg.
      split; [reflexivity |]. split; [lia |].
      constructor; [simpl; split; [reflexivity | lia] |].
      eapply Forall_impl; [exact Hpos |]. simpl. intros p [? ?]. split; [done | lia].
    + simpl. rewrite (skipn_nth_error_none _ _ Hnth).
      split; [by rewrite firstn_nil |]. split; [simpl; lia | constructor].
Qed.

Lemma place_rows_images images cols todo r idx :
  map image (place_rows images cols todo r idx)
    = firstn (todo * cols) (skipn idx images).
Proof.
  revert r idx. induction todo as [| todo IH]; intros r idx; simpl.
  - reflexivity.
  - pose proof (place_row_spec images r cols 0 idx) as (Himg & Hidx & _).
    destruct (place_row images r cols 0 idx) as [ps idx'] eqn:Hrow.
    simpl in *. rewrite map_app, IH, Himg, Hidx.
    rewrite <- (length_map image ps), Himg.
    rewrite <- drop_drop.
    apply firstn_firstn_skipn.
Qed.

Lemma place_row_length images r todo ccol idx :
  List.length (fst (place_row images r todo ccol idx)) <= todo.
Proof.
  pose proof (place_row_spec images r todo ccol idx) as (Himg & _ & _).
  rewrite <- (length_map image), Himg, length_firstn. lia.
Qed.

Lemma place_row_nth images r todo ccol idx k p :
  nth_error (fst (place_row images r todo ccol idx)) k = Some p ->
  row p = r /\ col p = ccol + k /\ nth_error images (idx + k) = Some (image p).
Proof.
  revert ccol idx k. induction todo as [| todo IH]; intros ccol idx k; simpl.
  - destruct k; discriminate.
  - destruct (nth_error images idx) as [img |] eqn:Hnth.
    + specialize (IH (S ccol) (S idx)).
      destruct (place_row images r todo (S ccol) (S idx)) as [ps idx'].
      simpl in *. destruct k as [| k]; simpl; intros H.
      * inversion H; subst p; simpl.
        rewrite !Nat.add_0_r. split; [reflexivity |]. split; [reflexivity | done].
      * destruct (IH k H) as (? & ? & ?).
        replace (idx + S k) with (S idx + k) by lia.
        split; [done |]. split; [lia | done].
    + destruct k; discriminate.
Qed.

Lemma place_row_short images r todo ccol idx :
  List.length (fst (place_row images r todo ccol idx)) < todo ->
  nth_error images (snd (place_row images r todo ccol idx)) = None.
Proof.
  revert ccol idx. induction todo as [| todo IH]; intros ccol idx; simpl.
  - lia.
  - destruct (nth_error images idx) as [img |] eqn:Hnth; [| done].
    specialize (IH (S ccol) (S idx)).
    destruct (place_row images r todo (S ccol) (S idx)) as [ps idx'].
    simpl in *. intros H. apply IH. lia.
Qed.

Lemma place_rows_exhausted images cols todo r idx :
  nth_error images idx = None -> place_rows images cols todo r idx = [].
Proof.
  revert r. induction todo as [| todo IH]; intros r Hnone; simpl; [done |].
  assert (Hrow : place_row images r cols 0 idx = ([], idx)).
  { destruct cols; simpl; [done |]. by rewrite Hnone. }
  rewrite Hrow. simpl. by apply IH.
Qed.

Lemma place_rows_nth images cols todo r idx k p :
  0 < cols ->
  nth_error (place_rows images cols todo r idx) k = Some p ->
  row p = r + k / cols /\ col p = k mod cols /\
  nth_error images (idx + k) = Some (image p).
Proof.
  intros Hcols. revert r idx k. induction todo as [| todo IH]; intros r idx k; simpl.
  - destruct k; discriminate.
  - pose proof (place_row_spec images r cols 0 idx) as (_ & Hidx & _).
    pose proof (place_row_length images r cols 0 idx) as Hlen.
    pose proof (place_row_short images r cols 0 idx) as Hshort.
    pose proof (place_row_nth images r cols 0 idx) as Hnth.
    destruct (place_row images r cols 0 idx) as [ps idx'].
    simpl in *. intros H.
    destruct (Nat.lt_ge_cases k (List.length ps)) as [Hk | Hk].
    + rewrite nth_error_app1 in H by done.
      destruct (Hnth k p H) as (? & ? & ?).
      rewrite Nat.div_small, Nat.mod_small by lia.
      split; [lia |]. split; [done | done].
    + rewrite nth_error_app2 in H by done.
      destruct (Nat.lt_ge_cases (List.length ps) cols) as [Hlt | Hge].
      * rewrite (place_rows_exhausted _ _ _ _ _ (Hshort Hlt)) in H.
        destruct (k - List.length ps); discriminate.
      * assert (Hfull : List.length ps = cols) by lia.
        rewrite Hfull in *.
        destruct (IH (S r) idx' (k - cols) H) as (Hr & Hc & Hi).
        assert (Hk' : k = (k - cols) + 1 * cols) by lia.
        split; [| split].
        -- rewrite Hr. rewrite Hk' at 2. rewrite Nat.div_add by lia. lia.
        -- rewrite Hc. rewrite Hk' at 2. by rewrite Nat.Div0.mod_add.
        -- rewrite <- Hi. f_equal. lia.
Qed.

Lemma grid_shape_table n :
  (n = 1 -> grid_shape n = (1, 1)) /\
  (2 <= n <= 4 -> grid_shape n = (2, 2)) /\
  (5 <= n <= 6 -> grid_shape n = (3, 2)) /\
  (7 <= n <= 9 -> grid_shape n = (3, 3)) /\
  (9 < n -> grid_shape n = (3, 3)).
Proof.
  repeat split; intros H.
  - by subst n.
  - assert (Hc : n = 2 \/ n = 3 \/ n = 4) by lia.
    destruct Hc as [-> | [-> | ->]]; reflexivity.
  - assert (Hc : n = 5 \/ n = 6) by lia.
    destruct Hc as [-> | ->]; reflexivity.
  - assert (Hc : n = 7 \/ n = 8 \/ n = 9) by lia.
    destruct Hc as [-> | [-> | ->]]; reflexivity.
  - do 10 (destruct n as [| n]; [lia |]). reflexivity.
Qed.

Lemma grid_shape_capacity n :
  1 <= n <= 9 -> n <= fst (grid_shape n) * snd (grid_shape n).
Proof.
  intros H.
  assert (Hc : n = 1 \/ n = 2 \/ n = 3 \/ n = 4 \/ n = 5 \/ n = 6 \/ n = 7 \/
               n = 8 \/ n = 9) by lia.
  repeat (destruct Hc as [-> | Hc]; [simpl; lia |]). subst n; simpl; lia.
Qed.

Lemma grid_shape_positive n : 0 < fst (grid_shape n) /\ 0 < snd (grid_shape n).
Proof.
  unfold grid_shape.
  repeat (match goal with |- context [if ?b then _ else _] => destruct b end);
    simpl; lia.
Qed.

(** C1.  With [n] the number of chart images that were rasterized, the
    page of a section has the grid 1x1 for n = 1, 2x2 for n = 2, 3, 4, 3x2
    for n = 5, 6, and 3x3 for n = 7, 8, 9 and for every n above 9.  The
    images are placed row by row in capture order, each inside the grid; up
    to nine images all are placed, above nine exactly the first nine, and
    never more than columns times rows. *)
Theorem grid_packing (E : Env) (r : Registry) (sec title_text : string)
    (images : list Image) :
  get_figs r sec <> [] ->
  rasterize_all E (get_figs r sec) = Ok images ->
  exists cols rows placements,
    build_section_pdf E r sec title_text =
      Ok (mkPage title_text (card_rows_of (get_cards r sec))
                 (Some (cols, rows)) placements) /\
    (List.length images = 1 -> cols = 1 /\ rows = 1) /\
    (2 <= List.length images <= 4 -> cols = 2 /\ rows = 2) /\
    (5 <= List.length images <= 6 -> cols = 3 /\ rows = 2) /\
    (7 <= List.length images <= 9 -> cols = 3 /\ rows = 3) /\
    (9 < List.length images -> cols = 3 /\ rows = 3) /\
    List.length placements <= cols * rows /\
    map image placements = firstn (cols * rows) images /\
    (1 <= List.length images <= 9 -> map image placements = images) /\
    (9 < List.length images -> map image placements = firstn 9 images) /\
    (forall k p, nth_error placements k = Some p ->
       row p = k / cols /\ col p = k mod cols /\ row p < rows /\ col p < cols /\
       nth_error images k = Some (image p)).
Proof.
  intros Hfigs Hras.
  pose proof (grid_shape_table (List.length images)) as (T1 & T2 & T3 & T4 & T5).
  pose proof (grid_shape_capacity (List.length images)) as Hcap.
  pose proof (grid_shape_positive (List.length images)) as [Hc Hr].
  destruct (grid_shape (List.length images)) as [cols rows] eqn:Hshape.
  simpl in Hcap, Hc, Hr.
  exists cols, rows, (place_rows images cols rows 0 0).
  assert (Himgs : map image (place_rows images cols rows 0 0)
                  = firstn (cols * rows) images).
  { rewrite place_rows_images. simpl. by rewrite Nat.mul_comm. }
  assert (Hlen : List.length (place_rows images cols rows 0 0) <= cols * rows).
  { rewrite <- (length_map image), Himgs, length_firstn. lia. }
  split.
  { unfold build_section_pdf.
    destruct (get_figs r sec) as [| f fs] eqn:Hf; [done |].
    rewrite Hras. simpl. by rewrite Hshape. }
  split; [intros H; specialize (T1 H); by inversion T1 |].
  split; [intros H; specialize (T2 H); by inversion T2 |].
  split; [intros H; specialize (T3 H); by inversion T3 |].
  split; [intros H; specialize (T4 H); by inversion T4 |].
  split; [intros H; specialize (T5 H); by inversion T5 |].
  split; [exact Hlen |].
  split; [exact Himgs |].
  split; [intros H; rewrite Himgs; apply firstn_all2; auto |].
  split; [intros H; rewrite Himgs; specialize (T5 H); by inversion T5 |].
  intros k p Hk.
  destruct (place_rows_nth images cols rows 0 0 k p Hc Hk) as (Hrow & Hcol & Himg).
  simpl in Hrow, Himg.
  assert (Hklt : k < cols * rows).
  { assert (Hs : nth_error (place_rows images cols rows 0 0) k <> None)
      by (rewrite Hk; discriminate).
    apply nth_error_Some in Hs. lia. }
  split; [done |]. split; [done |].
  split; [rewrite Hrow; apply Nat.Div0.div_lt_upper_bound; lia |].
  split; [rewrite Hcol; apply Nat.mod_upper_bound; lia | done].
Qed.

(** ** Slide deck *)

Lemma graph_slide_ok E fig caption idx tot :
  renders_for_slide E fig ->
  exists png, _ppt_add_graph_slide E fig caption idx tot
              = Ok (mkSlide (GraphSlide caption png) idx tot).
Proof.
  intros [H | H]; unfold _ppt_add_graph_slide.
  - destruct (to_image E fig ppt_preset) as [p |]; [| done]. by exists p.
  - destruct (to_image E fig ppt_preset) as [p |]; [by exists p |].
    destruct (to_image E fig ppt_preset_default) as [p |]; [| done]. by exists p.
Qed.

Lemma graph_slide_raises E fig caption idx tot :
  ~ renders_for_slide E fig ->
  _ppt_add_graph_slide E fig caption idx tot = Raise (LibraryError "to_image").
Proof.
  intros H. unfold _ppt_add_graph_slide, renders_for_slide in *.
  destruct (to_image E fig ppt_preset) as [p |].
  - exfalso. apply H. left. discriminate.
  - destruct (to_image E fig ppt_preset_default) as [p |]; [| done].
    exfalso. apply H. right. discriminate.
Qed.

(** The slides of the loop over the charts, given every chart renders. *)
Lemma chart_slides_ok E title_text figs idx tot :
  (forall fig, In fig figs -> renders_for_slide E fig) ->
  exists slides,
    chart_slides E title_text figs idx tot
      = Ok (slides, idx + 2 * List.length figs) /\
    map kind_of slides = flat_map (fun _ => [KGraph; KExplain]) figs /\
    map number slides = seq idx (2 * List.length figs) /\
    Forall (fun s => total s = tot) slides /\
    (forall k fig, nth_error figs k = Some fig ->
       (exists png, nth_error slides (2 * k)
          = Some (mkSlide (GraphSlide (caption_of fig title_text) png)
                          (idx + 2 * k) tot)) /\
       nth_error slides (2 * k + 1)
         = Some (_ppt_add_explain_slide (caption_of fig title_text)
                   (_figure_summary_points E fig) (idx + 2 * k + 1) tot)).
Proof.
  revert idx. induction figs as [| fig figs IH]; intros idx Hren.
  - exists []. simpl. rewrite Nat.add_0_r.
    split; [done |]. split; [done |]. split; [done |]. split; [constructor |].
    intros k f H. destruct k; discriminate.
  - destruct (graph_slide_ok E fig (caption_of fig title_text) idx tot) as [png Hg];
      [apply Hren; by left |].
    destruct (IH (idx + 2)) as (slides & Hrun & Hkinds & Hnums & Htot & Hnth);
      [intros f Hf; apply Hren; by right |].
    exists (mkSlide (GraphSlide (caption_of fig title_text) png) idx tot ::
            _ppt_add_explain_slide (caption_of fig title_text)
              (_figure_summary_points E fig) (idx + 1) tot :: slides).
    split.
    { simpl chart_slides. rewrite Hg, Hrun. simpl. do 2 f_equal. lia. }
    split; [simpl; by rewrite Hkinds |].
    split.
    { simpl map. rewrite Hnums.
      replace (2 * List.length (fig :: figs)) with (S (S (2 * List.length figs)))
        by (simpl; lia).
      simpl. do 2 f_equal. replace (idx + 1) with (S idx) by lia.
      f_equal. f_equal. lia. }
    split; [by repeat constructor |].
    intros k f Hk. destruct k as [| k]; simpl in Hk.
    + inversion Hk; subst f. rewrite !Nat.add_0_r. simpl. split; [by exists png | done].
    + destruct (Hnth k f Hk) as [[png' Hgk] Hek].
      replace (2 * S k) with (S (S (2 * k))) by lia.
      replace (S (S (2 * k)) + 1) with (S (S (2 * k + 1))) by lia.
      simpl nth_error.
      replace (idx + S (S (2 * k))) with (idx + 2 + 2 * k) by lia.
      replace (idx + S (S (2 * k)) + 1) with (idx + 2 + 2 * k + 1) by lia.
      split; [by exists png' | done].
Qed.

(** C2.  For a section with N captured charts the deck has 2N+2 slides: a
    title slide, then for each chart in capture order its image slide
    followed by its explanation slide, then the conclusion slide.  Every
    slide carries the total 2N+2 and its own 1-based position, and the
    positions run 1, 2, ..., 2N+2. *)
Theorem deck_sequence (E : Env) (r : Registry) (sec title_text : string) :
  _PPTX_OK E = true ->
  (forall fig, In fig (get_figs r sec) -> renders_for_slide E fig) ->
  exists deck,
    build_section_ppt_brand E r sec title_text = Ok deck /\
    List.length deck = 2 * List.length (get_figs r sec) + 2 /\
    map kind_of deck =
      KTitle :: flat_map (fun _ => [KGraph; KExplain]) (get_figs r sec)
        ++ [KConclusion] /\
    map number deck = seq 1 (2 * List.length (get_figs r sec) + 2) /\
    Forall (fun s => total s = 2 * List.length (get_figs r sec) + 2) deck /\
    Forall (fun s => footer_text s =
                     string_of_nat (number s) +:+ " / " +:+
                     string_of_nat (2 * List.length (get_figs r sec) + 2)) deck /\
    (forall k fig, nth_error (get_figs r sec) k = Some fig ->
       (exists png, nth_error deck (2 * k + 1)
          = Some (mkSlide (GraphSlide (caption_of fig title_text) png)
                          (2 * k + 2) (2 * List.length (get_figs r sec) + 2))) /\
       nth_error deck (2 * k + 2)
         = Some (_ppt_add_explain_slide (caption_of fig title_text)
                   (_figure_summary_points E fig) (2 * k + 3)
                   (2 * List.length (get_figs r sec) + 2))).
Proof.
  intros Hok Hren.
  set (figs := get_figs r sec) in *.
  set (tot := 2 * List.length figs + 2).
  destruct (chart_slides_ok E title_text figs 2 tot Hren)
    as (slides & Hrun & Hkinds & Hnums & Htot & Hnth).
  assert (Hlen : List.length slides = 2 * List.length figs).
  { rewrite <- (length_map number), Hnums. apply length_seq. }
  exists (_ppt_add_title_slide title_text 1 tot :: slides ++
          [_ppt_add_conclusion conclusion_points (2 + 2 * List.length figs) tot]).
  assert (Htotal : Forall (fun s => total s = tot)
            (_ppt_add_title_slide title_text 1 tot :: slides ++
             [_ppt_add_conclusion conclusion_points (2 + 2 * List.length figs) tot])).
  { constructor; [done |]. apply Forall_app. split; [done |]. by repeat constructor. }
  split.
  { unfold build_section_ppt_brand. rewrite Hok. simpl negb. cbv iota.
    fold figs. replace (1 + 2 * List.length figs + 1) with tot by (unfold tot; lia).
    replace (1 + 1) with 2 by lia. rewrite Hrun. reflexivity. }
  split; [simpl; rewrite length_app, Hlen; simpl; lia |].
  split; [simpl; by rewrite map_app, Hkinds |].
  split.
  { change (map number (_ppt_add_title_slide title_text 1 tot :: slides ++
              [_ppt_add_conclusion conclusion_points (2 + 2 * List.length figs) tot]))
      with (1 :: map number (slides ++
              [_ppt_add_conclusion conclusion_points (2 + 2 * List.length figs) tot])).
    rewrite map_app, Hnums. unfold tot at 2.
    replace (2 * List.length figs + 2) with (1 + (2 * List.length figs + 1)) by lia.
    rewrite (seq_app 1 (2 * List.length figs + 1) 1).
    rewrite (seq_app (2 * List.length figs) 1 (1 + 1)). reflexivity. }
  split; [exact Htotal |].
  split.
  { eapply Forall_impl; [exact Htotal |]. intros s Hs. unfold footer_text.
    by rewrite Hs. }
  intros k fig Hk. destruct (Hnth k fig Hk) as [[png Hg] He].
  assert (Hklt : k < List.length figs).
  { assert (Hs : nth_error figs k <> None) by (rewrite Hk; discriminate).
    by apply nth_error_Some in Hs. }
  replace (2 * k + 1) with (S (2 * k)) by lia.
  replace (2 * k + 2) with (S (2 * k + 1)) by lia.
  assert (Hc : forall (x : Slide) l n, nth_error (x :: l) (S n) = nth_error l n)
    by reflexivity.
  rewrite !Hc, !nth_error_app1 by lia.
  split.
  - exists png. rewrite Hg. do 2 f_equal. lia.
  - rewrite He. do 2 f_equal. lia.
Qed.

(** ** Rasterization fallback *)

(** The nested handlers amount to one pass over the chain that stops at
    the first preset that renders; the error of the last one escapes. *)
Lemma render_png_first_rendered E fig :
  render_png E fig = lib_call "to_image" (first_rendered E fig preset_chain).
Proof.
  unfold render_png, preset_chain; simpl.
  repeat (match goal with
          | |- context [to_image E fig ?p] => destruct (to_image E fig p)
          end; try reflexivity).
Qed.

Lemma first_rendered_none E fig chain :
  first_rendered E fig chain = None <-> Forall (fun p => to_image E fig p = None) chain.
Proof.
  induction chain as [| p chain IH]; simpl.
  - split; [constructor | done].
  - destruct (to_image E fig p) eqn:Hp.
    + split; [discriminate |]. intros H. inversion H; congruence.
    + rewrite IH. split; [by constructor |]. intros H. by inversion H.
Qed.

Lemma rejected_by_chain_first_rendered E fig :
  rejected_by_chain E fig <-> first_rendered E fig preset_chain = None.
Proof.
  rewrite first_rendered_none. unfold rejected_by_chain, preset_chain. split.
  - intros (H1 & H2 & H3 & H4 & H5). by repeat constructor.
  - intros H.
    repeat match goal with
           | H : Forall _ (_ :: _) |- _ => inversion H; clear H; subst
           end.
    done.
Qed.

Lemma render_png_rejected E fig :
  rejected_by_chain E fig -> render_png E fig = Raise (LibraryError "to_image").
Proof.
  intros H. rewrite render_png_first_rendered.
  apply rejected_by_chain_first_rendered in H. by rewrite H.
Qed.

Lemma render_png_accepted E fig :
  ~ rejected_by_chain E fig -> exists png, render_png E fig = Ok png.
Proof.
  intros H. rewrite render_png_first_rendered.
  destruct (first_rendered E fig preset_chain) as [png |] eqn:Hf; [by exists png |].
  exfalso. apply H. by apply rejected_by_chain_first_rendered.
Qed.

(** A chart that the renderer rejects at the first two presets and
    accepts at the third is embedded with the bitmap of the third. *)
Lemma rasterize_third_preset E fig png w h :
  to_image E fig preset1 = None ->
  to_image E fig preset2 = None ->
  to_image E fig preset3 = Some png ->
  image_size E png = Some (w, h) ->
  rasterize E fig = Ok (Some (mkImage w h png)).
Proof.
  intros H1 H2 H3 Hsz. unfold rasterize, render_png.
  rewrite H1, H2, H3. simpl. by rewrite Hsz.
Qed.

(** A bitmap that cannot be read back sends the chart to the small
    preset, whatever presets are left in the chain; when that fails too the
    chart is skipped. *)
Lemma rasterize_unreadable E fig png :
  render_png E fig = Ok png ->
  image_size E png = None ->
  rasterize E fig =
    Ok (match to_image E fig preset_fallback with
        | Some pf =>
            match image_size E pf with
            | Some (w, h) => Some (mkImage w h pf)
            | None => None
            end
        | None => None
        end).
Proof.
  intros Hr Hsz. unfold rasterize. rewrite Hr. simpl. rewrite Hsz.
  destruct (to_image E fig preset_fallback) as [pf |]; [| done].
  by destruct (image_size E pf) as [[w h] |].
Qed.

Lemma rasterize_rejected E fig :
  rejected_by_chain E fig -> rasterize E fig = Raise (LibraryError "to_image").
Proof.
  intros H. unfold rasterize. by rewrite (render_png_rejected _ _ H).
Qed.

Lemma rasterize_accepted E fig :
  ~ rejected_by_chain E fig -> exists o, rasterize E fig = Ok o.
Proof.
  intros H. destruct (render_png_accepted _ _ H) as [png Hp].
  unfold rasterize. rewrite Hp. simpl.
  destruct (image_size E png) as [[w h] |]; [by eexists |].
  destruct (to_image E fig preset_fallback) as [pf |]; [| by eexists].
  destruct (image_size E pf) as [[w h] |]; by eexists.
Qed.

Lemma rasterize_raise_inv E fig e :
  rasterize E fig = Raise e -> e = LibraryError "to_image" /\ rejected_by_chain E fig.
Proof.
  intros H.
  assert (Hdec : rejected_by_chain E fig \/ ~ rejected_by_chain E fig).
  { rewrite rejected_by_chain_first_rendered.
    destruct (first_rendered E fig preset_chain); [right | left]; congruence. }
  destruct Hdec as [Hr | Hn].
  - rewrite (rasterize_rejected _ _ Hr) in H. inversion H. by split.
  - destruct (rasterize_accepted _ _ Hn) as [o Ho]. congruence.
Qed.

Lemma rejected_by_chain_dec E fig :
  rejected_by_chain E fig \/ ~ rejected_by_chain E fig.
Proof.
  rewrite rejected_by_chain_first_rendered.
  destruct (first_rendered E fig preset_chain); [right | left]; congruence.
Qed.

Lemma rasterize_all_rejected E figs fig :
  In fig figs -> rejected_by_chain E fig ->
  rasterize_all E figs = Raise (LibraryError "to_image").
Proof.
  intros Hin Hrej. induction figs as [| f figs IH]; [done |].
  simpl. destruct (rasterize E f) as [o | e] eqn:Hf.
  - simpl. destruct Hin as [-> | Hin].
    + rewrite (rasterize_rejected _ _ Hrej) in Hf. discriminate.
    + by rewrite (IH Hin).
  - simpl. by destruct (rasterize_raise_inv _ _ _ Hf) as [-> _].
Qed.

Lemma rasterize_all_accepted E figs :
  (forall fig, In fig figs -> ~ rejected_by_chain E fig) ->
  exists images, rasterize_all E figs = Ok images /\
                 List.length images <= List.length figs.
Proof.
  induction figs as [| f figs IH]; intros H.
  - exists []. by split.
  - destruct (rasterize_accepted E f) as [o Ho]; [apply H; by left |].
    destruct IH as (images & Himgs & Hlen); [intros g Hg; apply H; by right |].
    simpl. rewrite Ho, Himgs. simpl.
    destruct o as [img |]; eexists; (split; [reflexivity | simpl; lia]).
Qed.

Lemma rasterize_all_raise_inv E figs e :
  rasterize_all E figs = Raise e ->
  e = LibraryError "to_image" /\ exists fig, In fig figs /\ rejected_by_chain E fig.
Proof.
  induction figs as [| f figs IH]; [discriminate |].
  simpl. destruct (rasterize E f) as [o | e'] eqn:Hf; simpl.
  - destruct (rasterize_all E figs) as [images | e'']; simpl; [discriminate |].
    intros H. inversion H; subst e''.
    destruct (IH eq_refl) as (-> & g & Hg & Hrej).
    split; [done |]. exists g. split; [by right | done].
  - intros H. inversion H; subst e'.
    destruct (rasterize_raise_inv _ _ _ Hf) as [-> Hrej].
    split; [done |]. exists f. split; [by left | done].
Qed.

Lemma build_section_pdf_rejected E r sec title_text fig :
  In fig (get_figs r sec) -> rejected_by_chain E fig ->
  build_section_pdf E r sec title_text = Raise (LibraryError "to_image").
Proof.
  intros Hin Hrej. unfold build_section_pdf.
  destruct (get_figs r sec) as [| f fs] eqn:Hf; [done |].
  by rewrite (rasterize_all_rejected E (f :: fs) fig Hin Hrej).
Qed.

Lemma build_section_pdf_accepted E r sec title_text :
  (forall fig, In fig (get_figs r sec) -> ~ rejected_by_chain E fig) ->
  exists page, build_section_pdf E r sec title_text = Ok page.
Proof.
  intros H. unfold build_section_pdf.
  destruct (get_figs r sec) as [| f fs] eqn:Hf; [by eexists |].
  destruct (rasterize_all_accepted E (f :: fs) H) as (images & -> & _).
  simpl. destruct (grid_shape (List.length images)). by eexists.
Qed.

Lemma build_section_pdf_raise_inv E r sec title_text e :
  build_section_pdf E r sec title_text = Raise e ->
  e = LibraryError "to_image" /\
  exists fig, In fig (get_figs r sec) /\ rejected_by_chain E fig.
Proof.
  unfold build_section_pdf.
  destruct (get_figs r sec) as [| f fs] eqn:Hf; [discriminate |].
  destruct (rasterize_all E (f :: fs)) as [images | e'] eqn:Hr; simpl.
  - destruct (grid_shape (List.length images)). discriminate.
  - intros H. inversion H; subst e'.
    exact (rasterize_all_raise_inv E (f :: fs) e Hr).
Qed.

(** C7.  A chart that the renderer rejects at each of the five presets of
    the chain makes the export of its section raise: the fifth call is not
    guarded, the small fallback preset is never tried and no page is
    produced, whatever the other charts of the section are. *)
Theorem oversized_chart_aborts_page (E : Env) (r : Registry)
    (sec title_text : string) (fig : Figure) :
  In fig (get_figs r sec) ->
  rejected_by_chain E fig ->
  rasterize E fig = Raise (LibraryError "to_image") /\
  build_section_pdf E r sec title_text = Raise (LibraryError "to_image").
Proof.
  intros Hin Hrej. split.
  - by apply rasterize_rejected.
  - by apply (build_section_pdf_rejected E r sec title_text fig).
Qed.

(** When the renderer refuses the first two presets, the page embeds the
    bitmap of the third. *)
Example third_preset_is_embedded :
  build_section_pdf env_two_presets_fail (registry_of "Overview" [chart "a"])
    "Overview" "Overview"
  = Ok (mkPage "Overview" [] (Some (1, 1))
               [mkPlacement 0 0 (mkImage 1200 700 (png_of (chart "a") preset3))]).
Proof. vm_compute. reflexivity. Qed.

(** ** Empty sections and the consolidated report *)

Lemma build_section_pdf_empty E r sec title_text :
  get_figs r sec = [] -> get_cards r sec = [] ->
  build_section_pdf E r sec title_text = Ok (mkPage title_text [] None []).
Proof.
  intros Hf Hc. unfold build_section_pdf. by rewrite Hf, Hc.
Qed.

Lemma report_pages_nil_iff E r secs :
  report_pages E r secs = Ok [] <-> (forall sec, In sec secs -> get_figs r sec = []).
Proof.
  induction secs as [| sec secs IH]; simpl.
  - split; [intros _ s [] | done].
  - destruct (get_figs r sec) as [| f fs] eqn:Hf.
    + rewrite IH. split.
      * intros H s [<- | Hs]; [done | by apply H].
      * intros H s Hs. apply H. by right.
    + split.
      * destruct (build_section_pdf E r sec _) as [page | e]; simpl; [| discriminate].
        destruct (report_pages E r secs); simpl; discriminate.
      * intros H. specialize (H sec (or_introl eq_refl)). congruence.
Qed.

Lemma report_pages_raise_inv E r secs e :
  report_pages E r secs = Raise e ->
  e = LibraryError "to_image" /\
  exists sec fig, In sec secs /\ In fig (get_figs r sec) /\ rejected_by_chain E fig.
Proof.
  induction secs as [| sec secs IH]; simpl; [discriminate |].
  destruct (get_figs r sec) as [| f fs] eqn:Hf.
  - intros H. destruct (IH H) as (-> & s & g & Hs & Hg & Hrej).
    split; [done |]. exists s, g. split; [by right | by split].
  - destruct (build_section_pdf E r sec _) as [page | e'] eqn:Hb; simpl.
    + destruct (report_pages E r secs) as [pages | e''] eqn:Hp; simpl; [discriminate |].
      intros H. inversion H; subst e''.
      destruct (IH eq_refl) as (-> & s & g & Hs & Hg & Hrej).
      split; [done |]. exists s, g. split; [by right | by split].
    + intros H. inversion H; subst e'.
      destruct (build_section_pdf_raise_inv _ _ _ _ _ Hb) as (-> & g & Hg & Hrej).
      split; [done |]. exists sec, g. split; [by left | by split].
Qed.

(** C8.  The export of a section without charts and without cards returns
    a page that holds nothing but its title.  The consolidated export
    raises its "No charts found" error exactly when none of the included
    sections has a captured chart; and, as long as no chart is rejected by
    the whole preset chain, it raises at all exactly in that case. *)
Theorem empty_section_and_empty_report (E : Env) (r : Registry) (title_text : string) :
  (forall sec, get_figs r sec = [] -> get_cards r sec = [] ->
     build_section_pdf E r sec title_text = Ok (mkPage title_text [] None [])) /\
  (_PDF_MERGE_OK E = true ->
   (build_report_pdf_same_style E r title_text = Raise no_charts_found <->
    (forall sec, In sec section_order -> get_figs r sec = [])) /\
   ((forall sec fig, In sec section_order -> In fig (get_figs r sec) ->
       ~ rejected_by_chain E fig) ->
    (is_ok (build_report_pdf_same_style E r title_text) = false <->
     (forall sec, In sec section_order -> get_figs r sec = [])))).
Proof.
  split; [intros sec; apply build_section_pdf_empty |].
  intros Hmerge.
  unfold build_report_pdf_same_style. rewrite Hmerge. simpl negb. cbv iota.
  pose proof (report_pages_nil_iff E r section_order) as Hnil.
  destruct (report_pages E r section_order) as [pages | e] eqn:Hp; simpl.
  - destruct pages as [| page pages].
    + split; [by rewrite <- Hnil |]. intros _. by rewrite <- Hnil.
    + split.
      * split; [discriminate |]. rewrite <- Hnil. discriminate.
      * intros _. simpl. split; [discriminate |]. rewrite <- Hnil. discriminate.
  - destruct (report_pages_raise_inv _ _ _ _ Hp) as (-> & s & g & Hs & Hg & Hrej).
    split.
    + split; [discriminate |]. rewrite <- Hnil. discriminate.
    + intros Hacc. exfalso. by apply (Hacc s g).
Qed.

(** ** Order on floats and series statistics *)

Lemma Qle_bool_refl x : Qle_bool x x = true.
Proof. apply Qle_bool_iff. apply Qle_refl. Qed.

Lemma Qle_bool_total x y : Qle_bool x y = true \/ Qle_bool y x = true.
Proof.
  destruct (Qlt_le_dec x y) as [H | H].
  - left. apply Qle_bool_iff. by apply Qlt_le_weak.
  - right. by apply Qle_bool_iff.
Qed.

Lemma Qle_bool_trans x y z :
  Qle_bool x y = true -> Qle_bool y z = true -> Qle_bool x z = true.
Proof.
  rewrite !Qle_bool_iff. apply Qle_trans.
Qed.

Lemma fleb_refl a : notna a = true -> fleb a a = true.
Proof. destruct a; simpl; try done. intros _. apply Qle_bool_refl. Qed.

Lemma fleb_total a b :
  notna a = true -> notna b = true -> fleb a b = true \/ fleb b a = true.
Proof.
  destruct a, b; simpl; try done; try (by left); try (by right).
  intros _ _. apply Qle_bool_total.
Qed.

Lemma fleb_trans a b c :
  fleb a b = true -> fleb b c = true -> fleb a c = true.
Proof.
  destruct a, b, c; simpl; try done. apply Qle_bool_trans.
Qed.

Lemma fleb_notna a b : fleb a b = true -> notna a = true /\ notna b = true.
Proof. destruct a, b; simpl; done. Qed.

Lemma fltb_fleb a b :
  notna a = true -> notna b = true -> fltb a b = negb (fleb b a).
Proof. destruct a, b; simpl; done. Qed.

Lemma fmax_cases a b : fmax a b = a \/ fmax a b = b.
Proof. unfold fmax. destruct (fltb a b); [by right | by left]. Qed.

Lemma fmin_cases a b : fmin a b = a \/ fmin a b = b.
Proof. unfold fmin. destruct (fltb b a); [by right | by left]. Qed.

Lemma fmax_upper a b :
  notna a = true -> notna b = true ->
  fleb a (fmax a b) = true /\ fleb b (fmax a b) = true.
Proof.
  intros Ha Hb. unfold fmax. rewrite (fltb_fleb a b Ha Hb).
  destruct (fleb b a) eqn:Hba; simpl.
  - split; [by apply fleb_refl | done].
  - destruct (fleb_total a b Ha Hb) as [H | H]; [| congruence].
    split; [done | by apply fleb_refl].
Qed.

Lemma fmin_lower a b :
  notna a = true -> notna b = true ->
  fleb (fmin a b) a = true /\ fleb (fmin a b) b = true.
Proof.
  intros Ha Hb. unfold fmin. rewrite (fltb_fleb b a Hb Ha).
  destruct (fleb a b) eqn:Hab; simpl.
  - split; [by apply fleb_refl | done].
  - destruct (fleb_total a b Ha Hb) as [H | H]; [congruence |].
    split; [done | by apply fleb_refl].
Qed.

Lemma fold_fmax_spec vs v :
  notna v = true -> Forall (fun x => notna x = true) vs ->
  In (fold_left fmax vs v) (v :: vs) /\
  (forall x, In x (v :: vs) -> fleb x (fold_left fmax vs v) = true).
Proof.
  revert v. induction vs as [| w vs IH]; intros v Hv Hall; simpl.
  - split; [by left |]. intros x [<- | []]. by apply fleb_refl.
  - inversion Hall as [| ? ? Hw Hvs]; subst.
    destruct (fmax_upper v w Hv Hw) as [Hvm Hwm].
    assert (Hm : notna (fmax v w) = true)
      by (destruct (fmax_cases v w) as [-> | ->]; done).
    destruct (IH (fmax v w) Hm Hvs) as [Hin Hub].
    split.
    + destruct Hin as [Hin | Hin]; [| by right; right].
      rewrite <- Hin. destruct (fmax_cases v w) as [-> | ->]; [by left | by right; left].
    + intros x [<- | [<- | Hx]].
      * eapply fleb_trans; [exact Hvm |]. apply Hub. by left.
      * eapply fleb_trans; [exact Hwm |]. apply Hub. by left.
      * apply Hub. by right.
Qed.

Lemma fold_fmin_spec vs v :
  notna v = true -> Forall (fun x => notna x = true) vs ->
  In (fold_left fmin vs v) (v :: vs) /\
  (forall x, In x (v :: vs) -> fleb (fold_left fmin vs v) x = true).
Proof.
  revert v. induction vs as [| w vs IH]; intros v Hv Hall; simpl.
  - split; [by left |]. intros x [<- | []]. by apply fleb_refl.
  - inversion Hall as [| ? ? Hw Hvs]; subst.
    destruct (fmin_lower v w Hv Hw) as [Hvm Hwm].
    assert (Hm : notna (fmin v w) = true)
      by (destruct (fmin_cases v w) as [-> | ->]; done).
    destruct (IH (fmin v w) Hm Hvs) as [Hin Hlb].
    split.
    + destruct Hin as [Hin | Hin]; [| by right; right].
      rewrite <- Hin. destruct (fmin_cases v w) as [-> | ->]; [by left | by right; left].
    + intros x [<- | [<- | Hx]].
      * eapply fleb_trans; [| exact Hvm]. apply Hlb. by left.
      * eapply fleb_trans; [| exact Hwm]. apply Hlb. by left.
      * apply Hlb. by right.
Qed.

Lemma dropna_notna s : Forall (fun x => notna x = true) (dropna s).
Proof.
  unfold dropna. apply Forall_forall. intros x Hx.
  apply list_elem_of_In in Hx. apply filter_In in Hx. by destruct Hx.
Qed.

Lemma In_dropna s x : In x (dropna s) <-> In x s /\ notna x = true.
Proof. unfold dropna. apply filter_In. Qed.

Lemma any_notna_dropna s : any_notna s = true <-> dropna s <> [].
Proof.
  unfold any_notna. rewrite existsb_exists. split.
  - intros (x & Hx & Hn) Hnil.
    assert (H : In x (dropna s)) by (by apply In_dropna).
    rewrite Hnil in H. destruct H.
  - intros H. destruct (dropna s) as [| x l] eqn:Hd; [done |].
    exists x. apply In_dropna. rewrite Hd. by left.
Qed.

(** The maximum of a series is one of its non-missing cells and bounds
    all of them from above. *)
Lemma series_max_spec s :
  any_notna s = true ->
  In (series_max s) (dropna s) /\
  (forall x, In x (dropna s) -> fleb x (series_max s) = true).
Proof.
  intros H. apply any_notna_dropna in H. unfold series_max.
  pose proof (dropna_notna s) as Hall.
  destruct (dropna s) as [| v vs]; [done |].
  inversion Hall; subst. by apply fold_fmax_spec.
Qed.

Lemma series_min_spec s :
  any_notna s = true ->
  In (series_min s) (dropna s) /\
  (forall x, In x (dropna s) -> fleb (series_min s) x = true).
Proof.
  intros H. apply any_notna_dropna in H. unfold series_min.
  pose proof (dropna_notna s) as Hall.
  destruct (dropna s) as [| v vs]; [done |].
  inversion Hall; subst. by apply fold_fmin_spec.
Qed.




(** ** Explanation slide *)

Lemma finite_values_finite E tr :
  Forall (fun v => isfinite v = true) (finite_values E tr).
Proof.
  unfold finite_values. destruct (np_asarray_float E (ty tr)) as [arr |]; [| constructor].
  apply Forall_forall. intros x Hx. apply list_elem_of_In in Hx.
  apply filter_In in Hx. by destruct Hx.
Qed.


Lemma last_two (pre : list fnum) (a b : fnum) :
  last_value (pre ++ [b; a]) = a /\ last_delta (pre ++ [b; a]) = fsub a b.
Proof.
  split.
  - unfold last_value. replace (pre ++ [b; a]) with ((pre ++ [b]) ++ [a])
      by (by rewrite <- app_assoc).
    apply last_last.
  - unfold last_delta. rewrite rev_app_distr. reflexivity.
Qed.














(** ** Number formatting *)

Lemma append_empty_r (s : string) : s +:+ "" = s.
Proof.
  induction s as [| c s IH]; [done |].
  change (String c (s +:+ "") = String c s). by f_equal.
Qed.

Lemma list_ascii_of_string_app (a b : string) :
  list_ascii_of_string (a +:+ b) = list_ascii_of_string a ++ list_ascii_of_string b.
Proof.
  induction a as [| c a IH]; [done |].
  change (c :: list_ascii_of_string (a +:+ b)
          = c :: (list_ascii_of_string a ++ list_ascii_of_string b)).
  by f_equal.
Qed.

Lemma is_digit_not_point c : is_digit c = true -> c <> "."%char.
Proof. intros H ->. discriminate. Qed.

Lemma is_digit_or_comma_not_point c : is_digit_or_comma c = true -> c <> "."%char.
Proof. intros H ->. discriminate. Qed.

Lemma nilempty_digits (u : Decimal.uint) :
  Forall (fun c => is_digit c = true)
         (list_ascii_of_string (NilEmpty.string_of_uint u)).
Proof.
  induction u; simpl; constructor; (reflexivity || assumption).
Qed.

Lemma nilzero_digits (u : Decimal.uint) :
  Forall (fun c => is_digit c = true)
         (list_ascii_of_string (NilZero.string_of_uint u)).
Proof.
  destruct u; try apply (nilempty_digits (_ _)).
  simpl. by repeat constructor.
Qed.

Lemma int_digits_digits n : Forall (fun c => is_digit c = true) (int_digits n).
Proof. apply nilzero_digits. Qed.

Lemma digit_char_digit d : is_digit (digit_char d) = true.
Proof.
  unfold digit_char, is_digit.
  pose proof (Z.mod_pos_bound d 10 ltac:(lia)) as Hb.
  rewrite nat_ascii_embedding by lia.
  apply andb_true_iff. split; apply Nat.leb_le; lia.
Qed.

Lemma fixed_digits_spec k n :
  List.length (fixed_digits k n) = k /\
  Forall (fun c => is_digit c = true) (fixed_digits k n).
Proof.
  revert n. induction k as [| k IH]; intros n; simpl.
  - split; [done | constructor].
  - destruct (IH (n / 10)%Z) as [Hlen Hall]. split.
    + rewrite length_app, Hlen. simpl. lia.
    + apply Forall_app. split; [done |]. constructor; [apply digit_char_digit | constructor].
Qed.

Lemma group3_rev_chars ds :
  Forall (fun c => is_digit c = true) ds ->
  Forall (fun c => is_digit_or_comma c = true) (group3_rev ds).
Proof.
  assert (Hweak : forall l, Forall (fun c => is_digit c = true) l ->
                            Forall (fun c => is_digit_or_comma c = true) l).
  { intros l Hl. eapply Forall_impl; [exact Hl |]. intros c Hc.
    unfold is_digit_or_comma. by rewrite Hc. }
  assert (H : forall n l, List.length l <= n ->
                Forall (fun c => is_digit c = true) l ->
                Forall (fun c => is_digit_or_comma c = true) (group3_rev l)).
  { induction n as [| n IH]; intros l Hlen Hl.
    - destruct l; [constructor | simpl in Hlen; lia].
    - destruct l as [| a [| b [| c rest]]]; try (by apply Hweak).
      simpl. destruct rest as [| d rest]; [by apply Hweak |].
      inversion Hl as [| ? ? Ha Hl1]; subst.
      inversion Hl1 as [| ? ? Hb Hl2]; subst.
      inversion Hl2 as [| ? ? Hc Hl3]; subst.
      constructor; [unfold is_digit_or_comma; by rewrite Ha |].
      constructor; [unfold is_digit_or_comma; by rewrite Hb |].
      constructor; [unfold is_digit_or_comma; by rewrite Hc |].
      constructor; [reflexivity |].
      apply IH; [simpl in *; lia | done]. }
  intros Hds. by apply (H (List.length ds)).
Qed.

Lemma group_thousands_chars ds :
  Forall (fun c => is_digit c = true) ds ->
  Forall (fun c => is_digit_or_comma c = true) (group_thousands ds).
Proof.
  intros H. unfold group_thousands.
  apply Forall_forall. intros c Hc. apply list_elem_of_In in Hc. apply in_rev in Hc.
  assert (Hr : Forall (fun c => is_digit c = true) (rev ds)).
  { apply Forall_forall. intros x Hx. apply list_elem_of_In in Hx.
    apply in_rev in Hx. rewrite Forall_forall in H. apply H. by apply list_elem_of_In. }
  pose proof (group3_rev_chars _ Hr) as Hg. rewrite Forall_forall in Hg.
  apply Hg. by apply list_elem_of_In.
Qed.


Lemma round_half_even_nearest n d :
  (0 <= n)%Z -> (0 < d)%Z ->
  (0 <= round_half_even n d)%Z /\
  (- d <= 2 * (round_half_even n d * d - n) <= d)%Z.
Proof.
  intros Hn Hd. unfold round_half_even.
  pose proof (Z.div_mod n d ltac:(lia)) as Hdm.
  pose proof (Z.mod_pos_bound n d Hd) as Hmod.
  pose proof (Z.div_pos n d Hn Hd) as Hdiv.
  destruct (Z.compare_spec (2 * (n mod d)) d) as [He | Hl | Hg].
  - destruct (Z.even (n / d)); split; nia.
  - split; nia.
  - split; nia.
Qed.

Lemma sign_text_chars plus neg :
  Forall (fun c => c <> "."%char) (list_ascii_of_string (sign_text plus neg)).
Proof.
  destruct plus, neg; simpl; repeat constructor; discriminate.
Qed.

(** With precision 0 nothing follows the integer part. *)
Lemma py_format_f_no_point plus comma v :
  no_decimal_point (py_format_f plus comma 0 v).
Proof.
  unfold no_decimal_point.
  assert (H : Forall (fun c => c <> "."%char)
                     (list_ascii_of_string (py_format_f plus comma 0 v))).
  { destruct v as [q | | |]; unfold py_format_f.
    - rewrite !list_ascii_of_string_app. apply Forall_app. split.
      + apply sign_text_chars.
      + change (list_ascii_of_string "") with (@nil ascii).
        rewrite app_nil_r, list_ascii_of_string_of_list_ascii.
        pose proof (int_digits_digits (scaled_round 0 q / 10 ^ Z.of_nat 0)%Z) as Hd.
        destruct comma.
        * eapply Forall_impl; [apply (group_thousands_chars _ Hd) |].
          apply is_digit_or_comma_not_point.
        * eapply Forall_impl; [exact Hd |]. apply is_digit_not_point.
    - rewrite list_ascii_of_string_app. apply Forall_app. split.
      + apply sign_text_chars.
      + repeat constructor; discriminate.
    - repeat constructor; discriminate.
    - rewrite list_ascii_of_string_app. apply Forall_app. split.
      + apply sign_text_chars.
      + repeat constructor; discriminate. }
  rewrite Forall_forall in H. intros Hin. by apply (H "."%char); [apply list_elem_of_In |].
Qed.


(** With precision 2 and no separator: the sign, the digits of the
    integer part, a point and exactly two digits. *)
Lemma py_format_f_two_decimals plus q :
  exists ip fp,
    py_format_f plus false 2 (Fin q) =
      sign_text plus (negb (Qle_bool 0 q)) +:+ string_of_list_ascii ip +:+
      "." +:+ string_of_list_ascii fp /\
    List.length fp = 2 /\
    Forall (fun c => is_digit c = true) ip /\
    Forall (fun c => is_digit c = true) fp.
Proof.
  exists (int_digits (scaled_round 2 q / 10 ^ Z.of_nat 2)%Z),
         (fixed_digits 2 (scaled_round 2 q)).
  destruct (fixed_digits_spec 2 (scaled_round 2 q)) as [Hlen Hdig].
  split; [reflexivity |]. split; [exact Hlen |].
  split; [apply int_digits_digits | exact Hdig].
Qed.

Lemma is_integer_iff q : is_integer (Fin q) = true <-> exists z, q == inject_Z z.
Proof.
  simpl. rewrite Qeq_bool_iff. split.
  - intros H. exists (Qfloor q). by symmetry.
  - intros [z Hz]. rewrite Hz at 1. by rewrite Qfloor_Z, Hz.
Qed.

(** The three ways [_fmt_val] renders a finite value without suffix. *)
Lemma fmt_val_large q :
  (1000 <= Qabs q)%Q ->
  _fmt_val (Some (Fin q)) "" = py_format_f false true 0 (Fin q).
Proof.
  intros H. unfold _fmt_val. simpl isnan. cbv iota.
  assert (Hb : fleb (Fin 1000) (fabs (Fin q)) = true)
    by (simpl; by apply Qle_bool_iff).
  rewrite Hb. simpl. by rewrite append_empty_r.
Qed.

Lemma fmt_val_small q :
  (Qabs q < 1000)%Q ->
  _fmt_val (Some (Fin q)) "" =
    if is_integer (Fin q) then py_format_f false true 0 (Fin q)
    else py_format_f false false 2 (Fin q).
Proof.
  intros H. unfold _fmt_val. simpl isnan. cbv iota.
  assert (Hb : fleb (Fin 1000) (fabs (Fin q)) = false).
  { simpl. destruct (Qle_bool 1000 (Qabs q)) eqn:Hq; [| done].
    apply Qle_bool_iff in Hq. exfalso. by apply (Qlt_not_le _ _ H). }
  rewrite Hb. simpl andb. cbv iota.
  change (String.eqb "" "%") with false. cbv iota.
  destruct (is_integer (Fin q)); simpl negb; cbv iota; by rewrite append_empty_r.
Qed.

(** ** Narrative sentences *)

Lemma describe_numeric E tr s :
  ttype tr <> "pie" -> ty tr <> [] ->
  pd_to_numeric E (ty tr) = Some s ->
  _describe_trace E tr =
    Ok (if any_notna s
        then numeric_sentence (name_or tr "Series")
               (_fmt_val (Some (series_max s)) "")
               (month_at (tx tr) (series_idxmax s))
               (_fmt_val (Some (series_min s)) "")
               (month_at (tx tr) (series_idxmin s))
               (_fmt_val (Some (series_mean s)) "")
               (_fmt_val (Some (series_sum s)) "")
        else neutral_sentence (name_or tr "Series")).
Proof.
  intros Hpie Hys Hpd. unfold _describe_trace.
  apply String.eqb_neq in Hpie. rewrite Hpie.
  destruct (ty tr) as [| y ys] eqn:Hy; [done |].
  simpl List.length. simpl negb. cbv iota.
  rewrite Hpd. simpl. by destruct (any_notna s).
Qed.

Lemma describe_no_data E tr :
  ttype tr <> "pie" -> ty tr = [] ->
  _describe_trace E tr = Ok (neutral_sentence (name_or tr "Series")).
Proof.
  intros Hpie Hys. unfold _describe_trace.
  apply String.eqb_neq in Hpie. by rewrite Hpie, Hys.
Qed.




(** ** Narrative document *)

Lemma describe_cases E tr :
  (coercion_raises E tr /\ _describe_trace E tr = Raise (LibraryError "to_numeric")) \/
  (~ coercion_raises E tr /\ exists s, _describe_trace E tr = Ok s).
Proof.
  unfold coercion_raises, coerced_input, _describe_trace.
  destruct (String.eqb (ttype tr) "pie").
  - destruct (negb (Nat.eqb (List.length (tlabels tr)) 0) &&
              negb (Nat.eqb (List.length (tvalues tr)) 0)).
    + destruct (pd_to_numeric E (tvalues tr)) as [s |] eqn:Hpd; simpl.
      * right. split; [| by eexists]. intros (l & Hl & Hn). congruence.
      * left. split; [by eexists | done].
    + right. split; [| by eexists]. intros (l & Hl & _). discriminate.
  - destruct (negb (Nat.eqb (List.length (ty tr)) 0)).
    + destruct (pd_to_numeric E (ty tr)) as [s |] eqn:Hpd; simpl.
      * right. split; [| destruct (any_notna s); by eexists].
        intros (l & Hl & Hn). congruence.
      * left. split; [by eexists | done].
    + right. split; [| by eexists]. intros (l & Hl & _). discriminate.
Qed.

Lemma describe_ok E tr :
  ~ coercion_raises E tr -> _describe_trace E tr = Ok (sentence_of E tr).
Proof.
  intros H. destruct (describe_cases E tr) as [[Hr _] | [_ [s Hs]]]; [done |].
  unfold sentence_of. by rewrite Hs.
Qed.

Lemma describe_raises E tr :
  coercion_raises E tr -> _describe_trace E tr = Raise (LibraryError "to_numeric").
Proof.
  intros H. by destruct (describe_cases E tr) as [[_ Hr] | [Hn _]].
Qed.

Lemma trace_bullets_ok E traces :
  (forall tr, In tr traces -> ~ coercion_raises E tr) ->
  trace_bullets E traces
    = Ok (map (fun tr => BodyPara ("• " +:+ sentence_of E tr)) traces).
Proof.
  induction traces as [| tr traces IH]; intros H; [done |].
  simpl. rewrite (describe_ok E tr) by (apply H; by left). simpl.
  rewrite IH by (intros t Ht; apply H; by right). reflexivity.
Qed.

Lemma trace_bullets_raises E traces tr :
  In tr traces -> coercion_raises E tr ->
  trace_bullets E traces = Raise (LibraryError "to_numeric").
Proof.
  intros Hin Hr. induction traces as [| t traces IH]; [done |].
  simpl. destruct (describe_cases E t) as [[_ Ht] | [Hn [s Hs]]].
  - by rewrite Ht.
  - rewrite Hs. simpl. destruct Hin as [-> | Hin]; [done |].
    by rewrite (IH Hin).
Qed.

Lemma figure_block_ok E idx fig :
  (forall tr, In tr (data fig) -> ~ coercion_raises E tr) ->
  figure_block E idx fig = Ok (figure_paragraphs E idx fig).
Proof.
  intros H. unfold figure_block, figure_paragraphs.
  destruct (data fig) as [| tr traces] eqn:Hd; [done |].
  by rewrite (trace_bullets_ok E (tr :: traces) H).
Qed.

Lemma figure_block_raises E idx fig tr :
  In tr (data fig) -> coercion_raises E tr ->
  figure_block E idx fig = Raise (LibraryError "to_numeric").
Proof.
  intros Hin Hr. unfold figure_block.
  destruct (data fig) as [| t traces] eqn:Hd; [done |].
  by rewrite (trace_bullets_raises E (t :: traces) tr Hin Hr).
Qed.

Lemma figure_block_cases E idx fig :
  figure_block E idx fig = Raise (LibraryError "to_numeric") \/
  exists ps, figure_block E idx fig = Ok ps.
Proof.
  unfold figure_block. destruct (data fig) as [| t traces]; [right; by eexists |].
  assert (H : trace_bullets E (t :: traces) = Raise (LibraryError "to_numeric") \/
              exists bs, trace_bullets E (t :: traces) = Ok bs).
  { generalize (t :: traces). intros l. induction l as [| a l IH]; [right; by eexists |].
    simpl. destruct (describe_cases E a) as [[_ Ha] | [_ [s Hs]]].
    - left. by rewrite Ha.
    - rewrite Hs. simpl. destruct IH as [-> | [bs ->]]; [by left | right; by eexists]. }
  destruct H as [-> | [bs ->]]; [by left | right; by eexists].
Qed.

Lemma figure_blocks_ok E idx figs :
  (forall fig tr, In fig figs -> In tr (data fig) -> ~ coercion_raises E tr) ->
  figure_blocks E idx figs = Ok (document_body E idx figs).
Proof.
  revert idx. induction figs as [| fig figs IH]; intros idx H; [done |].
  simpl. rewrite figure_block_ok by (intros tr Ht; apply (H fig tr); [by left | done]).
  simpl. rewrite IH by (intros f tr Hf Ht; apply (H f tr); [by right | done]).
  reflexivity.
Qed.

Lemma figure_blocks_raises E idx figs fig tr :
  In fig figs -> In tr (data fig) -> coercion_raises E tr ->
  figure_blocks E idx figs = Raise (LibraryError "to_numeric").
Proof.
  intros Hin Htr Hr. revert idx.
  induction figs as [| f figs IH]; intros idx; [done |].
  simpl. destruct (figure_block_cases E idx f) as [Hf | [ps Hf]].
  - by rewrite Hf.
  - rewrite Hf. simpl. destruct Hin as [-> | Hin].
    + rewrite (figure_block_raises E idx fig tr Htr Hr) in Hf. discriminate.
    + by rewrite (IH Hin).
Qed.

(** C9, as the code has it.  The sentence of a trace depends on that trace
    alone.  A trace other than a pie without y values, or whose values are
    all missing after coercion, gets the neutral sentence by case
    distinction, not by a handler.  When no coercion raises, the document is
    produced with one bullet per trace in trace order; when the coercion of
    one trace raises, nothing catches it and the export raises. *)
Theorem narrative_generation (E : Env) (r : Registry) (sec title_text : string) :
  (forall tr, ttype tr <> "pie" ->
     (ty tr = [] \/
      exists s, pd_to_numeric E (ty tr) = Some s /\ any_notna s = false) ->
     _describe_trace E tr = Ok (neutral_sentence (name_or tr "Series"))) /\
  (_DOCX_OK E = true ->
   (forall fig tr, In fig (get_figs r sec) -> In tr (data fig) ->
      ~ coercion_raises E tr) ->
   build_section_docx E r sec title_text =
     Ok (TitlePara title_text :: BodyPara (_intro_for_section title_text) ::
         document_body E 1 (get_figs r sec) ++ [BodyPara _outro_note])) /\
  (_DOCX_OK E = true ->
   forall fig tr, In fig (get_figs r sec) -> In tr (data fig) ->
     coercion_raises E tr ->
     _describe_trace E tr = Raise (LibraryError "to_numeric") /\
     build_section_docx E r sec title_text = Raise (LibraryError "to_numeric")).
Proof.
  split.
  { intros tr Hpie [Hy | (s & Hs & Hany)].
    - by apply describe_no_data.
    - destruct (ty tr) as [| y ys] eqn:Hty.
      + apply describe_no_data; done.
      + rewrite (describe_numeric E tr s Hpie); [by rewrite Hany | by rewrite Hty |].
        by rewrite Hty. }
  split.
  { intros Hok H. unfold build_section_docx. rewrite Hok. simpl negb. cbv iota.
    by rewrite (figure_blocks_ok E 1 _ H). }
  intros Hok fig tr Hfig Htr Hr. split; [by apply describe_raises |].
  unfold build_section_docx. rewrite Hok. simpl negb. cbv iota.
  by rewrite (figure_blocks_raises E 1 _ fig tr Hfig Htr Hr).
Qed.

(** C9, as stated, fails.  The second trace of the chart has the y values
    [1, 10**400, 3]; converting the int [10**400] to a float raises
    [OverflowError] inside the coercion.  The sentence of the first trace is
    generated, the second raises instead of yielding the neutral sentence,
    and no document is produced. *)
Lemma trace_failure_aborts_document :
  _DOCX_OK sample_env = true /\
  get_figs broken_registry "Overview" = [titled "Energy mix" [solar_trace; broken_trace]] /\
  _describe_trace sample_env solar_trace =
    Ok "Solar: peak 50 in Feb 2024, lowest 10 in Jan 2024, average 30, total 90." /\
  _describe_trace sample_env broken_trace = Raise (LibraryError "to_numeric") /\
  _describe_trace sample_env broken_trace <> Ok (neutral_sentence "Gas") /\
  build_section_docx sample_env broken_registry "Overview" "Overview"
    = Raise (LibraryError "to_numeric") /\
  ~ (exists doc, build_section_docx sample_env broken_registry "Overview" "Overview"
                 = Ok doc).
Proof.
  assert (Hb : build_section_docx sample_env broken_registry "Overview" "Overview"
               = Raise (LibraryError "to_numeric")) by (vm_compute; reflexivity).
  split; [reflexivity |].
  split; [vm_compute; reflexivity |].
  split; [vm_compute; reflexivity |].
  split; [vm_compute; reflexivity |].
  split; [vm_compute; discriminate |].
  split; [exact Hb |].
  intros [doc Hdoc]. rewrite Hb in Hdoc. discriminate.
Qed.

(** ** The statements at sample inputs *)

Lemma begin_then_captures_witness :
  capture_target (begin_section "Overview" initial_registry) = "Overview" /\
  get_figs (run (Begin "Overview" :: map CaptureFig [chart "a"; chart "b"])
                initial_registry) "Overview"
    = [chart "a"; chart "b"].
Proof.
  split; [reflexivity |].
  exact (proj1 (begin_then_captures "Overview" initial_registry
                  [chart "a"; chart "b"] eq_refl)).
Defined.

Lemma begin_section_frame_witness :
  "Overview" <> "Expenses" /\
  get_figs (begin_section "Expenses" (registry_of "Overview" [chart "a"])) "Overview"
    = get_figs (registry_of "Overview" [chart "a"]) "Overview".
Proof.
  assert (Hne : "Overview" <> "Expenses") by discriminate.
  split; [exact Hne |].
  exact (proj1 (begin_section_frame "Overview" "Expenses"
                  (registry_of "Overview" [chart "a"]) Hne)).
Defined.

Lemma grid_packing_witness :
  get_figs (registry_of "Overview" ten_charts) "Overview" <> [] /\
  rasterize_all sample_env (get_figs (registry_of "Overview" ten_charts) "Overview")
    = Ok ten_images /\
  exists placements,
    build_section_pdf sample_env (registry_of "Overview" ten_charts) "Overview" "Overview"
      = Ok (mkPage "Overview" [] (Some (3, 3)) placements) /\
    map image placements = firstn 9 ten_images.
Proof.
  assert (H1 : get_figs (registry_of "Overview" ten_charts) "Overview" <> [])
    by (vm_compute; discriminate).
  assert (H2 : rasterize_all sample_env
                 (get_figs (registry_of "Overview" ten_charts) "Overview")
               = Ok ten_images) by (vm_compute; reflexivity).
  split; [exact H1 |]. split; [exact H2 |].
  destruct (grid_packing sample_env (registry_of "Overview" ten_charts)
              "Overview" "Overview" ten_images H1 H2)
    as (cols & rows & placements & Hb & _ & _ & _ & _ & H9 & _ & _ & _ & Hfirst & _).
  assert (Hlen : 9 < List.length ten_images) by (vm_compute; lia).
  destruct (H9 Hlen) as [-> ->].
  exists placements. split; [exact Hb | exact (Hfirst Hlen)].
Defined.

Lemma deck_sequence_witness :
  _PPTX_OK sample_env = true /\
  (forall fig, In fig (get_figs (registry_of "Overview" (firstn 3 ten_charts)) "Overview") ->
     renders_for_slide sample_env fig) /\
  exists deck,
    build_section_ppt_brand sample_env (registry_of "Overview" (firstn 3 ten_charts))
      "Overview" "Overview" = Ok deck /\
    List.length deck = 8 /\
    map number deck = [1; 2; 3; 4; 5; 6; 7; 8].
Proof.
  assert (H2 : forall fig,
             In fig (get_figs (registry_of "Overview" (firstn 3 ten_charts)) "Overview") ->
             renders_for_slide sample_env fig)
    by (intros fig _; left; discriminate).
  split; [reflexivity |]. split; [exact H2 |].
  destruct (deck_sequence sample_env (registry_of "Overview" (firstn 3 ten_charts))
              "Overview" "Overview" eq_refl H2)
    as (deck & Hb & Hlen & _ & Hnum & _).
  exists deck. split; [exact Hb |]. split; [exact Hlen | exact Hnum].
Defined.

Lemma oversized_chart_aborts_page_witness :
  In (chart "oversized")
     (get_figs (registry_of "Overview" [chart "a"; chart "oversized"; chart "b"])
               "Overview") /\
  rejected_by_chain rejecting_env (chart "oversized") /\
  build_section_pdf rejecting_env
    (registry_of "Overview" [chart "a"; chart "oversized"; chart "b"])
    "Overview" "Overview" = Raise (LibraryError "to_image").
Proof.
  assert (H1 : In (chart "oversized")
                 (get_figs (registry_of "Overview"
                              [chart "a"; chart "oversized"; chart "b"]) "Overview"))
    by (vm_compute; right; left; reflexivity).
  assert (H2 : rejected_by_chain rejecting_env (chart "oversized"))
    by (repeat split; reflexivity).
  split; [exact H1 |]. split; [exact H2 |].
  exact (proj2 (oversized_chart_aborts_page rejecting_env _ "Overview" "Overview"
                  (chart "oversized") H1 H2)).
Defined.

Lemma empty_section_and_empty_report_witness :
  _PDF_MERGE_OK sample_env = true /\
  build_section_pdf sample_env (registry_of "Forecasting" [chart "f"]) "Data" "Data"
    = Ok (mkPage "Data" [] None []) /\
  build_report_pdf_same_style sample_env (registry_of "Forecasting" [chart "f"]) "Data"
    = Raise no_charts_found.
Proof.
  destruct (empty_section_and_empty_report sample_env
              (registry_of "Forecasting" [chart "f"]) "Data")
    as (Hsingle & Hmerged).
  destruct (Hmerged eq_refl) as (Hreport & _).
  split; [reflexivity |]. split.
  - apply Hsingle; reflexivity.
  - apply Hreport. intros sec Hin. simpl in Hin.
    repeat (destruct Hin as [<- | Hin]; [reflexivity |]). destruct Hin.
Defined.


Lemma narrative_generation_witness :
  _DOCX_OK sample_env = true /\
  build_section_docx sample_env (registry_of "Overview" [chart "a"]) "Overview" "Overview"
    = Ok (TitlePara "Overview" :: BodyPara (_intro_for_section "Overview") ::
          document_body sample_env 1 [chart "a"] ++ [BodyPara _outro_note]).
Proof.
  split; [reflexivity |].
  destruct (narrative_generation sample_env (registry_of "Overview" [chart "a"])
              "Overview" "Overview") as (_ & Hdoc & _).
  apply (Hdoc eq_refl). intros fig tr Hf Ht (l & Hl & Hn).
  vm_compute in Hf. destruct Hf as [<- | []].
  simpl in Ht. destruct Ht as [<- | []].
  vm_compute in Hl. inversion Hl; subst l.
  vm_compute in Hn. discriminate.
Defined.


(** ** Palettes *)

Lemma palette_base_nonempty context : palette_base context <> [].
Proof.
  unfold palette_base.
  repeat (match goal with |- context [if ?b then _ else _] => destruct b end);
    discriminate.
Qed.

Lemma length_concat_repeat {A : Type} (l : list A) (k : nat) :
  List.length (List.concat (List.repeat l k)) = k * List.length l.
Proof.
  induction k as [| k IH]; simpl; [done |].
  by rewrite length_app, IH.
Qed.

Lemma nth_error_concat_repeat {A : Type} (l : list A) (k i : nat) :
  i < k * List.length l ->
  nth_error (List.concat (List.repeat l k)) i = nth_error l (i mod List.length l).
Proof.
  revert i. induction k as [| k IH]; intros i Hi; simpl in *; [lia |].
  destruct (Nat.lt_ge_cases i (List.length l)) as [Hlt | Hge].
  - rewrite nth_error_app1 by done. by rewrite Nat.mod_small.
  - rewrite nth_error_app2 by done. rewrite IH by lia.
    f_equal.
    replace i with ((i - List.length l) + 1 * List.length l) at 2 by lia.
    by rewrite Nat.Div0.mod_add.
Qed.

Lemma nth_error_firstn_lt {A : Type} (l : list A) (n i : nat) :
  i < n -> nth_error (firstn n l) i = nth_error l i.
Proof.
  revert l i. induction n as [| n IH]; intros l i Hi; [lia |].
  destruct l as [| a l]; [by destruct i |].
  destruct i as [| i]; simpl; [done |]. apply IH. lia.
Qed.

(** X1.  For a count [n >= 0], [brand_palette] returns exactly [n]
    colours, and colour [i] is entry [i mod len(base)] of the palette of the
    context: the base list is cut when it is long enough and repeated
    cyclically when it is too short, so indexing the result below [n] never
    fails. *)
Theorem brand_palette_cycles (context : string) (n : Z) :
  (0 <= n)%Z ->
  List.length (brand_palette context n) = Z.to_nat n /\
  (forall i, i < Z.to_nat n ->
     exists c, nth_error (brand_palette context n) i = Some c /\
               nth_error (palette_base context)
                         (i mod List.length (palette_base context)) = Some c) /\
  (forall c, In c (brand_palette context n) -> In c (palette_base context)).
Proof.
  intros Hn.
  pose proof (palette_base_nonempty context) as Hne.
  unfold brand_palette.
  set (base := palette_base context) in *.
  assert (Hlen : 0 < List.length base) by (destruct base; [done | simpl; lia]).
  assert (Hslice : forall l : list string, py_slice_to l n = firstn (Z.to_nat n) l).
  { intros l. unfold py_slice_to. destruct (Z.ltb_spec n 0); [lia | done]. }
  assert (Hnth : forall i, i < Z.to_nat n ->
             nth_error (if (Z.of_nat (List.length base) <? n)%Z
                        then py_slice_to
                               (py_list_mul base (n / Z.of_nat (List.length base) + 1)) n
                        else py_slice_to base n) i
             = nth_error base (i mod List.length base) /\
             i mod List.length base < List.length base).
  { intros i Hi.
    split; [| apply Nat.mod_upper_bound; lia].
    destruct (Z.ltb_spec (Z.of_nat (List.length base)) n) as [Hlong | Hshort];
      rewrite Hslice, nth_error_firstn_lt by done.
    - unfold py_list_mul. apply nth_error_concat_repeat.
      assert (Hk : (n < (n / Z.of_nat (List.length base) + 1)
                        * Z.of_nat (List.length base))%Z).
      { pose proof (Z.div_mod n (Z.of_nat (List.length base)) ltac:(lia)) as Hdm.
        pose proof (Z.mod_pos_bound n (Z.of_nat (List.length base)) ltac:(lia)) as Hm.
        nia. }
      assert (Hq : (0 <= n / Z.of_nat (List.length base))%Z)
        by (apply Z.div_pos; lia).
      nia.
    - rewrite Nat.mod_small by lia. reflexivity. }
  assert (Hlength : List.length
            (if (Z.of_nat (List.length base) <? n)%Z
             then py_slice_to (py_list_mul base (n / Z.of_nat (List.length base) + 1)) n
             else py_slice_to base n) = Z.to_nat n).
  { destruct (Z.ltb_spec (Z.of_nat (List.length base)) n) as [Hlong | Hshort];
      rewrite Hslice, length_firstn.
    - unfold py_list_mul. rewrite length_concat_repeat.
      assert (Hk : (n < (n / Z.of_nat (List.length base) + 1)
                        * Z.of_nat (List.length base))%Z).
      { pose proof (Z.div_mod n (Z.of_nat (List.length base)) ltac:(lia)) as Hdm.
        pose proof (Z.mod_pos_bound n (Z.of_nat (List.length base)) ltac:(lia)) as Hm.
        nia. }
      assert (Hq : (0 <= n / Z.of_nat (List.length base))%Z)
        by (apply Z.div_pos; lia).
      nia.
    - lia. }
  split; [exact Hlength |].
  split.
  - intros i Hi. destruct (Hnth i Hi) as [Heq Hlt].
    destruct (nth_error base (i mod List.length base)) as [c |] eqn:Hc.
    + exists c. by split.
    + apply nth_error_None in Hc. lia.
  - intros c Hc. apply In_nth_error in Hc as [i Hi].
    assert (Hilt : i < Z.to_nat n).
    { rewrite <- Hlength. apply nth_error_Some. by rewrite Hi. }
    destruct (Hnth i Hilt) as [Heq _]. rewrite Hi in Heq.
    symmetry in Heq. by apply nth_error_In in Heq.
Qed.

Lemma brand_palette_cycles_witness :
  (0 <= 8)%Z /\
  brand_palette "mix" 8 = [CYAN; TEAL; SOLAR_GOLD; CYAN; TEAL; SOLAR_GOLD; CYAN; TEAL] /\
  List.length (brand_palette "mix" 8) = 8.
Proof.
  assert (H : (0 <= 8)%Z) by lia.
  split; [exact H |]. split; [reflexivity |].
  exact (proj1 (brand_palette_cycles "mix" 8 H)).
Defined.

(** ** Column lookup *)

Lemma in_list_In x l : in_list x l = true <-> In x l.
Proof.
  unfold in_list. rewrite existsb_exists. split.
  - intros (y & Hy & Heq). apply String.eqb_eq in Heq. by subst.
  - intros H. exists x. split; [done | apply String.eqb_refl].
Qed.

Lemma lower_map_fold_some lower cols (m : gmap string string) k c :
  fold_left (fun m c => <[lower c := c]> m) cols m !! k = Some c ->
  (In c cols /\ lower c = k) \/ m !! k = Some c.
Proof.
  revert m. induction cols as [| a cols IH]; intros m H; simpl in *; [by right |].
  destruct (IH _ H) as [[Hin Hk] | Hm].
  - left. split; [by right | done].
  - destruct (decide (lower a = k)) as [Heq | Hne].
    + rewrite Heq, lookup_insert_eq in Hm. inversion Hm; subst c.
      left. split; [by left | done].
    + rewrite lookup_insert_ne in Hm by done. by right.
Qed.

Lemma lower_map_fold_none lower cols (m : gmap string string) k :
  fold_left (fun m c => <[lower c := c]> m) cols m !! k = None <->
  m !! k = None /\ (forall c, In c cols -> lower c <> k).
Proof.
  revert m. induction cols as [| a cols IH]; intros m; simpl.
  - split; [intros H; split; [done | intros c []] | by intros [H _]].
  - rewrite IH. split.
    + intros [Hm Hall]. destruct (decide (lower a = k)) as [Heq | Hne].
      * rewrite Heq, lookup_insert_eq in Hm. discriminate.
      * rewrite lookup_insert_ne in Hm by done.
        split; [done |]. intros c [<- | Hc]; [done | by apply Hall].
    + intros [Hm Hall]. split.
      * rewrite lookup_insert_ne; [done |]. apply Hall. by left.
      * intros c Hc. apply Hall. by right.
Qed.

(** X2.  [pick_col_name] only ever returns one of the given columns, and
    one whose lower-case form is that of a candidate; it returns [None]
    exactly when no column matches any candidate up to case; and a first
    candidate that is itself a column is returned as it is. *)
Theorem pick_col_name_spec (lower : string -> string) (cols candidates : list string) :
  (forall c, pick_col_name lower cols candidates = Some c ->
     In c cols /\ exists cand, In cand candidates /\ lower c = lower cand) /\
  (pick_col_name lower cols candidates = None <->
   (forall cand c, In cand candidates -> In c cols -> lower c <> lower cand)) /\
  (forall cand rest, candidates = cand :: rest -> In cand cols ->
     pick_col_name lower cols candidates = Some cand).
Proof.
  unfold pick_col_name. split; [| split].
  - induction candidates as [| cand rest IH]; intros c H; simpl in H; [discriminate |].
    destruct (in_list cand cols) eqn:Hin.
    + inversion H; subst c. apply in_list_In in Hin.
      split; [done |]. exists cand. split; [by left | done].
    + destruct (lower_map_of lower cols !! lower cand) as [c' |] eqn:Hl.
      * inversion H; subst c'. unfold lower_map_of in Hl.
        apply lower_map_fold_some in Hl as [[Hc Hk] | Hm].
        -- split; [done |]. exists cand. split; [by left | done].
        -- rewrite lookup_empty in Hm. discriminate.
      * destruct (IH c H) as [Hc (cand' & Hcand & Heq)].
        split; [done |]. exists cand'. split; [by right | done].
  - induction candidates as [| cand rest IH]; simpl.
    + split; [intros _ cand c [] | done].
    + destruct (in_list cand cols) eqn:Hin.
      * split; [discriminate |]. intros H. apply in_list_In in Hin.
        exfalso. by apply (H cand cand (or_introl eq_refl) Hin).
      * destruct (lower_map_of lower cols !! lower cand) as [c' |] eqn:Hl.
        -- split; [discriminate |]. intros H. unfold lower_map_of in Hl.
           apply lower_map_fold_some in Hl as [[Hc Hk] | Hm].
           ++ exfalso. by apply (H cand c' (or_introl eq_refl) Hc).
           ++ rewrite lookup_empty in Hm. discriminate.
        -- unfold lower_map_of in Hl. apply lower_map_fold_none in Hl as [_ Hall].
           rewrite IH. split.
           ++ intros H cand' c [<- | Hc'] Hc; [by apply Hall | by apply H].
           ++ intros H cand' c Hc' Hc. apply H; [by right | done].
  - intros cand rest -> Hin. simpl. apply in_list_In in Hin. by rewrite Hin.
Qed.

(** ** Chart labels *)

Lemma value_text_large q :
  (1000 <= Qabs q)%Q -> _value_text (PyFloat (Fin q)) = py_format_f false true 0 (Fin q).
Proof.
  intros H. unfold _value_text. simpl isnan. cbv iota.
  assert (Hb : fleb (Fin 1000) (fabs (Fin q)) = true)
    by (simpl; by apply Qle_bool_iff).
  by rewrite Hb.
Qed.

Lemma value_text_small q :
  (Qabs q < 1000)%Q -> _value_text (PyFloat (Fin q)) = py_format_f false false 2 (Fin q).
Proof.
  intros H. unfold _value_text. simpl isnan. cbv iota.
  assert (Hb : fleb (Fin 1000) (fabs (Fin q)) = false).
  { simpl. destruct (Qle_bool 1000 (Qabs q)) eqn:Hq; [| done].
    apply Qle_bool_iff in Hq. exfalso. by apply (Qlt_not_le _ _ H). }
  by rewrite Hb.
Qed.

(** X3.  The label of a bar or point and the number in a narrative
    sentence are the same text for a value of magnitude 1000 or more and for
    a smaller value that is not whole.  A whole value below 1000 is written
    with two decimals on the chart and without any in the narrative; on the
    chart every value below 1000 has exactly two decimals. *)
Theorem value_text_vs_fmt_val (q : Q) :
  ((1000 <= Qabs q)%Q ->
     _value_text (PyFloat (Fin q)) = _fmt_val (Some (Fin q)) "") /\
  ((Qabs q < 1000)%Q -> is_integer (Fin q) = false ->
     _value_text (PyFloat (Fin q)) = _fmt_val (Some (Fin q)) "") /\
  ((Qabs q < 1000)%Q ->
     exists ip fp,
       _value_text (PyFloat (Fin q)) =
         sign_text false (negb (Qle_bool 0 q)) +:+ string_of_list_ascii ip +:+
         "." +:+ string_of_list_ascii fp /\
       List.length fp = 2 /\
       Forall (fun c => is_digit c = true) ip /\
       Forall (fun c => is_digit c = true) fp) /\
  ((Qabs q < 1000)%Q -> is_integer (Fin q) = true ->
     ~ no_decimal_point (_value_text (PyFloat (Fin q))) /\
     no_decimal_point (_fmt_val (Some (Fin q)) "")).
Proof.
  split; [| split; [| split]].
  - intros H. by rewrite value_text_large, fmt_val_large.
  - intros H Hint. by rewrite value_text_small, fmt_val_small, Hint.
  - intros H. rewrite value_text_small by done. apply py_format_f_two_decimals.
  - intros H Hint. split.
    + rewrite value_text_small by done.
      destruct (py_format_f_two_decimals false q) as (ip & fp & -> & _).
      unfold no_decimal_point. intros Hno. apply Hno.
      rewrite !list_ascii_of_string_app. apply in_or_app. right.
      apply in_or_app. right. apply in_or_app. left. by left.
    + rewrite fmt_val_small, Hint by done. apply py_format_f_no_point.
Qed.

Lemma value_text_vs_fmt_val_witness :
  (Qabs 50 < 1000)%Q /\ is_integer (Fin 50) = true /\
  _value_text (PyFloat (Fin 50)) = "50.00" /\
  _fmt_val (Some (Fin 50)) "" = "50" /\
  ~ no_decimal_point (_value_text (PyFloat (Fin 50))).
Proof.
  assert (H : (Qabs 50 < 1000)%Q) by reflexivity.
  split; [exact H |]. split; [reflexivity |].
  split; [reflexivity |]. split; [reflexivity |].
  exact (proj1 (proj2 (proj2 (proj2 (value_text_vs_fmt_val 50))) H eq_refl)).
Defined.

(** ** Safe division *)

Lemma is_zero_iff y : is_zero (Fin y) = true <-> (y == 0)%Q.
Proof. simpl. apply Qeq_bool_iff. Qed.

Lemma qsign_eq_iff y : qsign y = Eq <-> (y == 0)%Q.
Proof.
  unfold qsign, Qeq. simpl. rewrite Z.compare_eq_iff. lia.
Qed.

Lemma double_round_not_nan q : isnan (double_round q) = false.
Proof.
  unfold double_round.
  repeat match goal with
         | |- context [if ?b then _ else _] => destruct b
         end; reflexivity.
Qed.

(** The quotient is NaN only for a NaN operand or for two infinities. *)
Lemma fdiv_nan_iff x y :
  is_zero y = false ->
  (isnan (fdiv x y) = true <->
   isnan x = true \/ isnan y = true \/ (isfinite x = false /\ isfinite y = false)).
Proof.
  intros Hz. destruct x as [x | | |], y as [y | | |]; simpl;
    try (split; [discriminate | intros [H | [H | [H1 H2]]]; discriminate]);
    try (split; [intros _; by left | done]);
    try (split; [intros _; right; by left | done]);
    try (split; [intros _; right; right; by split | done]).
  - rewrite double_round_not_nan.
    split; [discriminate | intros [H | [H | [H1 H2]]]; discriminate].
  - assert (Hs : qsign y <> Eq).
    { rewrite qsign_eq_iff, <- is_zero_iff, Hz. discriminate. }
    unfold inf_over. destruct (qsign y); [done | |]; simpl;
      (split; [discriminate | intros [H | [H | [H1 H2]]]; discriminate]).
  - assert (Hs : qsign y <> Eq).
    { rewrite qsign_eq_iff, <- is_zero_iff, Hz. discriminate. }
    unfold inf_over. destruct (qsign y); [done | |]; simpl;
      (split; [discriminate | intros [H | [H | [H1 H2]]]; discriminate]).
Qed.

(** X6.  [safe_div] is not safe against every argument: it raises
    [OverflowError] exactly when the first argument is an int beyond the
    range of a double, or the first argument converts and the second is such
    an int.  In every other case it returns, and returns NaN exactly
    when [float()] rejects an argument ([None], text that is no number, a
    container), an argument is NaN, the divisor is zero, or both arguments
    are infinite; a zero divisor never raises. *)
Theorem safe_div_spec (str_to_float : string -> option fnum) (a b : pyval) :
  (safe_div str_to_float a b = RaisesOverflowError <->
   py_float str_to_float a = Overflow \/
   ((exists x, py_float str_to_float a = Converted x) /\
    py_float str_to_float b = Overflow)) /\
  (forall v, safe_div str_to_float a b = Returns v ->
     (isnan v = true <->
      py_float str_to_float a = Rejected \/
      py_float str_to_float b = Rejected \/
      py_float str_to_float a = Converted NaN \/
      py_float str_to_float b = Converted NaN \/
      (exists y, py_float str_to_float b = Converted (Fin y) /\ (y == 0)%Q) \/
      (exists x y, py_float str_to_float a = Converted x /\
                   py_float str_to_float b = Converted y /\
                   isfinite x = false /\ isfinite y = false))) /\
  (forall x y, py_float str_to_float a = Converted x ->
     py_float str_to_float b = Converted y -> is_zero y = true ->
     safe_div str_to_float a b = Returns NaN).
Proof.
  unfold safe_div. split; [| split].
  - destruct (py_float str_to_float a) as [x | |].
    + destruct (py_float str_to_float b) as [y | |].
      * split.
        -- destruct (is_zero y || isnan y); discriminate.
        -- intros [H | [_ H]]; discriminate.
      * split; [discriminate | intros [H | [_ H]]; discriminate].
      * split; [intros _; right; split; [by eexists | done] | done].
    + split; [discriminate | intros [H | [[x H] _]]; discriminate].
    + split; [intros _; by left | done].
  - intros v. destruct (py_float str_to_float a) as [x | |].
    + destruct (py_float str_to_float b) as [y | |].
      * destruct (is_zero y) eqn:Hz; simpl orb.
        { intros H. inversion H; subst v. split; [intros _ | done].
          destruct y as [y | | |]; try discriminate.
          right; right; right; right; left. exists y.
          split; [done | by apply is_zero_iff]. }
        destruct (isnan y) eqn:Hn.
        { intros H. inversion H; subst v. split; [intros _ | done].
          destruct y; try discriminate. right; right; right; by left. }
        intros H. inversion H; subst v. rewrite (fdiv_nan_iff x y Hz). split.
        -- intros [Hx | [Hy | [Hx Hy]]].
           ++ destruct x; try discriminate. right; right; by left.
           ++ congruence.
           ++ repeat right. exists x, y. by repeat split.
        -- intros [H1 | [H1 | [H1 | [H1 | [(y' & H1 & Hy') | (x' & y' & Hx & Hy & Hfx & Hfy)]]]]];
             try discriminate.
           ++ inversion H1; subst x. by left.
           ++ inversion H1; subst y. discriminate.
           ++ inversion H1; subst y. apply is_zero_iff in Hy'. congruence.
           ++ inversion Hx; inversion Hy; subst x' y'. right; right; by split.
      * intros H. inversion H; subst v. split; [intros _; right; by left | done].
      * discriminate.
    + intros H. inversion H; subst v. split; [intros _; by left | done].
    + discriminate.
  - intros x y -> -> Hz. by rewrite Hz.
Qed.

Lemma safe_div_spec_witness :
  py_float (fun _ => None) (num 10) = Converted (Fin 10) /\
  py_float (fun _ => None) (num 0) = Converted (Fin 0) /\
  is_zero (Fin 0) = true /\
  safe_div (fun _ => None) (num 10) (num 0) = Returns NaN /\
  safe_div (fun _ => None) (num 10) (num 4) = Returns (Fin (5 # 2)) /\
  safe_div (fun _ => None) (num 10) (PyStr "n/a") = Returns NaN /\
  safe_div (fun _ => None) (num (10 ^ 400)) (num 4) = RaisesOverflowError.
Proof.
  split; [reflexivity |]. split; [reflexivity |]. split; [reflexivity |].
  split; [exact (proj2 (proj2 (safe_div_spec (fun _ => None) (num 10) (num 0)))
                   (Fin 10) (Fin 0) eq_refl eq_refl eq_refl) |].
  split; [vm_compute; reflexivity |].
  split; [reflexivity |].
  vm_compute. reflexivity.
Defined.

(** ** Statistics of a series *)

Lemma dropna_idem s : dropna (dropna s) = dropna s.
Proof.
  unfold dropna. induction s as [| v s IH]; [done |].
  simpl. destruct (notna v) eqn:Hv; simpl; [by rewrite Hv, IH | done].
Qed.

(** X7.  [_series_stats] returns four [None] exactly when coercion leaves
    no value that is not missing.  Otherwise it returns four numbers, of
    which the minimum and the maximum are among the values that are not
    missing and bound all of them. *)
Theorem series_stats_spec (E : Env) (values : list pyval) (s : list fnum) :
  pd_to_numeric E values = Some s ->
  (_series_stats E values = Ok (None, None, None, None) <-> any_notna s = false) /\
  (any_notna s = true ->
     exists mn mx avg sm,
       _series_stats E values = Ok (Some mn, Some mx, Some avg, Some sm) /\
       In mn (dropna s) /\ In mx (dropna s) /\
       (forall v, In v (dropna s) -> fleb mn v = true /\ fleb v mx = true)).
Proof.
  intros Hpd. unfold _series_stats. rewrite Hpd. cbn [lib_call bind].
  split.
  - destruct (dropna s) as [| v vs] eqn:Hd.
    + split; [intros _ | done].
      destruct (any_notna s) eqn:Hany; [| done].
      apply any_notna_dropna in Hany. done.
    + split; [discriminate |]. intros Hany.
      assert (H : any_notna s = true) by (apply any_notna_dropna; by rewrite Hd).
      congruence.
  - intros Hany.
    assert (Hne : dropna s <> []) by (by apply any_notna_dropna).
    assert (Hany' : any_notna (dropna s) = true)
      by (apply any_notna_dropna; by rewrite dropna_idem).
    destruct (series_min_spec _ Hany') as [Hmin_in Hmin].
    destruct (series_max_spec _ Hany') as [Hmax_in Hmax].
    rewrite dropna_idem in Hmin_in, Hmin, Hmax_in, Hmax.
    destruct (dropna s) as [| v vs] eqn:Hd; [done |]. rewrite <- Hd in *.
    exists (series_min (dropna s)), (series_max (dropna s)),
           (series_mean (dropna s)), (series_sum (dropna s)).
    split; [reflexivity |]. split; [done |]. split; [done |].
    intros x Hx; split; [by apply Hmin | by apply Hmax].
Qed.

Lemma series_stats_spec_witness :
  pd_to_numeric sample_env [num 10; PyNone; num 50; num 30]
    = Some [Fin (inject_Z 10); NaN; Fin (inject_Z 50); Fin (inject_Z 30)] /\
  any_notna [Fin (inject_Z 10); NaN; Fin (inject_Z 50); Fin (inject_Z 30)] = true /\
  exists mn mx avg sm,
    _series_stats sample_env [num 10; PyNone; num 50; num 30]
      = Ok (Some mn, Some mx, Some avg, Some sm) /\
    In mn [Fin (inject_Z 10); Fin (inject_Z 50); Fin (inject_Z 30)] /\
    In mx [Fin (inject_Z 10); Fin (inject_Z 50); Fin (inject_Z 30)].
Proof.
  split; [reflexivity |]. split; [reflexivity |].
  destruct (proj2 (series_stats_spec sample_env [num 10; PyNone; num 50; num 30]
                     _ eq_refl) eq_refl)
    as (mn & mx & avg & sm & Hs & Hmn & Hmx & _).
  exists mn, mx, avg, sm. split; [exact Hs |]. split; [exact Hmn | exact Hmx].
Defined.

(** ** Render passes *)

Lemma run_captures_only cs r :
  forallb (fun c => negb (is_begin c)) cs = true ->
  CURRENT_SECTION (run cs r) = CURRENT_SECTION r /\
  get_figs (run cs r) (capture_target r)
    = get_figs r (capture_target r) ++ figs_of cs /\
  get_cards (run cs r) (capture_target r)
    = get_cards r (capture_target r) ++ groups_of cs /\
  (forall other, other <> capture_target r ->
     get_figs (run cs r) other = get_figs r other /\
     get_cards (run cs r) other = get_cards r other).
Proof.
  revert r. induction cs as [| c cs IH]; intros r Hnb.
  - simpl. rewrite !app_nil_r. by repeat split.
  - simpl in Hnb. apply andb_true_iff in Hnb as [Hc Hcs].
    rewrite run_cons. destruct (IH (exec c r) Hcs) as (Hcur & Hf & Hk & Hother).
    assert (Ht : capture_target (exec c r) = capture_target r)
      by (destruct c; [discriminate | reflexivity | reflexivity]).
    rewrite Ht in Hf, Hk, Hother.
    destruct c as [n | f | k t]; [discriminate | |]; simpl exec in *.
    + split; [by rewrite Hcur |].
      split; [rewrite Hf, get_figs_capture_fig, decide_True by done;
              simpl; by rewrite <- app_assoc |].
      split; [by rewrite Hk, get_cards_capture_fig |].
      intros other Hne. destruct (Hother other Hne) as [H1 H2].
      rewrite H1, H2, get_figs_capture_fig, decide_False by done. by split.
    + split; [by rewrite Hcur |].
      split; [by rewrite Hf, get_figs_capture_cards |].
      split; [rewrite Hk, get_cards_capture_cards, decide_True by done;
              simpl; by rewrite <- app_assoc |].
      intros other Hne. destruct (Hother other Hne) as [H1 H2].
      rewrite H1, H2, get_cards_capture_cards, decide_False by done. by split.
Qed.

(** X8.  After [begin(S)], with S the section captures are attributed to,
    any interleaving of chart and card captures leaves in S exactly the
    captured charts, in order, and exactly the captured card groups, in
    order; no other section changes and S stays current. *)
Theorem render_pass_contents (sec : string) (r : Registry) (cs : list command) :
  capture_target (begin_section sec r) = sec ->
  forallb (fun c => negb (is_begin c)) cs = true ->
  get_figs (run (Begin sec :: cs) r) sec = figs_of cs /\
  get_cards (run (Begin sec :: cs) r) sec = groups_of cs /\
  CURRENT_SECTION (run (Begin sec :: cs) r) = sec /\
  (forall other, other <> sec ->
     get_figs (run (Begin sec :: cs) r) other = get_figs r other /\
     get_cards (run (Begin sec :: cs) r) other = get_cards r other).
Proof.
  intros Hact Hnb. rewrite run_cons. simpl exec.
  destruct (run_captures_only cs (begin_section sec r) Hnb) as (Hcur & Hf & Hk & Hother).
  rewrite Hact in Hf, Hk, Hother.
  rewrite get_figs_begin_same in Hf. rewrite get_cards_begin_same in Hk.
  split; [exact Hf |]. split; [exact Hk |]. split; [exact Hcur |].
  intros other Hne. destruct (Hother other Hne) as [H1 H2].
  rewrite H1, H2. split.
  - by apply get_figs_begin_other.
  - by apply get_cards_begin_other.
Qed.

Lemma render_pass_contents_witness :
  capture_target (begin_section "Overview" initial_registry) = "Overview" /\
  forallb (fun c => negb (is_begin c))
          [CaptureFig (chart "a"); CaptureCards [] "Yearly Highlights";
           CaptureFig (chart "b")] = true /\
  get_figs (run [Begin "Overview"; CaptureFig (chart "a");
                 CaptureCards [] "Yearly Highlights"; CaptureFig (chart "b")]
                initial_registry) "Overview" = [chart "a"; chart "b"] /\
  get_cards (run [Begin "Overview"; CaptureFig (chart "a");
                  CaptureCards [] "Yearly Highlights"; CaptureFig (chart "b")]
                 initial_registry) "Overview" = [mkCardGroup [] "Yearly Highlights"].
Proof.
  split; [reflexivity |]. split; [reflexivity |].
  destruct (render_pass_contents "Overview" initial_registry
              [CaptureFig (chart "a"); CaptureCards [] "Yearly Highlights";
               CaptureFig (chart "b")] eq_refl eq_refl) as (Hf & Hk & _).
  split; [exact Hf | exact Hk].
Defined.

(** X9.  As long as a section is not begun again, whatever is executed
    only appends to its chart list and to its card-group list: what the
    section held stays, in place and in order, and what is added are charts
    and card groups captured by the commands. *)
Theorem section_only_grows (name : string) (r : Registry) (cs : list command) :
  forallb (fun c => negb (begins name c)) cs = true ->
  exists more_figs more_groups,
    get_figs (run cs r) name = get_figs r name ++ more_figs /\
    get_cards (run cs r) name = get_cards r name ++ more_groups /\
    (forall f, In f more_figs -> In f (figs_of cs)) /\
    (forall g, In g more_groups -> In g (groups_of cs)).
Proof.
  revert r. induction cs as [| c cs IH]; intros r Hnb.
  - exists [], []. simpl. rewrite !app_nil_r. by repeat split.
  - simpl in Hnb. apply andb_true_iff in Hnb as [Hc Hcs].
    rewrite run_cons.
    destruct (IH (exec c r) Hcs) as (mf & mg & Hf & Hk & Hmf & Hmg).
    destruct c as [n | f | k t]; simpl exec in *.
    + assert (Hne : name <> n).
      { simpl in Hc. destruct (String.eqb_spec n name); [discriminate | congruence]. }
      exists mf, mg.
      rewrite get_figs_begin_other in Hf by done.
      rewrite get_cards_begin_other in Hk by done.
      split; [done |]. split; [done |]. split; [exact Hmf | exact Hmg].
    + rewrite get_figs_capture_fig, get_cards_capture_fig in *.
      case_decide.
      * exists (f :: mf), mg. rewrite <- app_assoc in Hf.
        split; [done |]. split; [done |]. split; [| exact Hmg].
        intros x [<- | Hx]; simpl; [by left | right; by apply Hmf].
      * exists mf, mg. split; [done |]. split; [done |]. split; [| exact Hmg].
        intros x Hx. simpl. right. by apply Hmf.
    + rewrite get_figs_capture_cards, get_cards_capture_cards in *.
      case_decide.
      * exists mf, (mkCardGroup k t :: mg). rewrite <- app_assoc in Hk.
        split; [done |]. split; [done |]. split; [exact Hmf |].
        intros x [<- | Hx]; simpl; [by left | right; by apply Hmg].
      * exists mf, mg. split; [done |]. split; [done |]. split; [exact Hmf |].
        intros x Hx. simpl. right. by apply Hmg.
Qed.

Lemma section_only_grows_witness :
  forallb (fun c => negb (begins "Overview" c))
          [Begin "Expenses"; CaptureFig (chart "e")] = true /\
  exists more_figs,
    get_figs (run [Begin "Expenses"; CaptureFig (chart "e")]
                  (registry_of "Overview" [chart "a"])) "Overview"
      = get_figs (registry_of "Overview" [chart "a"]) "Overview" ++ more_figs.
Proof.
  split; [reflexivity |].
  destruct (section_only_grows "Overview" (registry_of "Overview" [chart "a"])
              [Begin "Expenses"; CaptureFig (chart "e")] eq_refl)
    as (mf & mg & Hf & _).
  exists mf. exact Hf.
Defined.

(** ** Consolidated exports *)

Lemma build_section_pdf_agree E r1 r2 sec title_text :
  get_figs r1 sec = get_figs r2 sec -> get_cards r1 sec = get_cards r2 sec ->
  build_section_pdf E r1 sec title_text = build_section_pdf E r2 sec title_text.
Proof. intros Hf Hc. unfold build_section_pdf. by rewrite Hf, Hc. Qed.

Lemma report_pages_agree E r1 r2 secs :
  (forall sec, In sec secs ->
     get_figs r1 sec = get_figs r2 sec /\ get_cards r1 sec = get_cards r2 sec) ->
  report_pages E r1 secs = report_pages E r2 secs.
Proof.
  induction secs as [| sec secs IH]; intros H; [done |].
  simpl. destruct (H sec (or_introl eq_refl)) as [Hf Hc].
  rewrite (build_section_pdf_agree E r1 r2 sec _ Hf Hc), Hf.
  rewrite IH by (intros s Hs; apply H; by right). reflexivity.
Qed.

Lemma report_section_blocks_agree E r1 r2 secs :
  (forall sec, In sec secs -> get_figs r1 sec = get_figs r2 sec) ->
  report_section_blocks E r1 secs = report_section_blocks E r2 secs.
Proof.
  induction secs as [| sec secs IH]; intros H; [done |].
  simpl. rewrite (H sec (or_introl eq_refl)).
  rewrite IH by (intros s Hs; apply H; by right). reflexivity.
Qed.

Lemma flat_map_agree {A B : Type} (f g : A -> list B) (l : list A) :
  (forall a, In a l -> f a = g a) -> flat_map f l = flat_map g l.
Proof.
  induction l as [| a l IH]; intros H; [done |].
  simpl. rewrite (H a (or_introl eq_refl)).
  rewrite IH by (intros b Hb; apply H; by right). reflexivity.
Qed.

Lemma reports_agree E r1 r2 title_text :
  same_report_content r1 r2 ->
  build_report_pdf_same_style E r1 title_text
    = build_report_pdf_same_style E r2 title_text /\
  build_report_docx E r1 title_text = build_report_docx E r2 title_text /\
  build_report_ppt_brand E r1 title_text = build_report_ppt_brand E r2 title_text.
Proof.
  intros H. split; [| split].
  - unfold build_report_pdf_same_style. by rewrite (report_pages_agree E r1 r2 _ H).
  - unfold build_report_docx.
    rewrite (report_section_blocks_agree E r1 r2 section_order); [done |].
    intros sec Hs. by destruct (H sec Hs).
  - unfold build_report_ppt_brand, report_figs.
    rewrite (flat_map_agree
               (fun sec => map (fun f => (sec, f)) (get_figs r1 sec))
               (fun sec => map (fun f => (sec, f)) (get_figs r2 sec))); [done |].
    intros sec Hs. by destruct (H sec Hs) as [-> _].
Qed.

Lemma page_not_in_section_order : ~ In "Page" section_order.
Proof.
  unfold section_order. simpl.
  intros H. repeat (destruct H as [H | H]; [discriminate |]). done.
Qed.

(** X10.  Rendering a tab that is not one of the seven consolidated
    sections (the Forecasting, Data and Report tabs, or captures made
    without a section) never changes a consolidated export: the PDF, the
    document and the deck of the report are what they were before the
    tab was begun and its charts and cards captured. *)
Theorem consolidated_exports_ignore_other_tabs (E : Env) (r : Registry)
    (title_text name : string) (cs : list command) :
  ~ In name section_order ->
  forallb (fun c => negb (is_begin c)) cs = true ->
  build_report_pdf_same_style E (run (Begin name :: cs) r) title_text
    = build_report_pdf_same_style E r title_text /\
  build_report_docx E (run (Begin name :: cs) r) title_text
    = build_report_docx E r title_text /\
  build_report_ppt_brand E (run (Begin name :: cs) r) title_text
    = build_report_ppt_brand E r title_text.
Proof.
  intros Hname Hnb. apply reports_agree.
  intros sec Hsec. rewrite run_cons. simpl exec.
  destruct (run_captures_only cs (begin_section name r) Hnb) as (_ & _ & _ & Hother).
  assert (Hne : sec <> name) by (intros ->; done).
  assert (Hnt : sec <> capture_target (begin_section name r)).
  { unfold capture_target. simpl.
    destruct (String.eqb name ""); [| done].
    intros ->. by apply page_not_in_section_order. }
  destruct (Hother sec Hnt) as [H1 H2]. rewrite H1, H2.
  split; [by apply get_figs_begin_other | by apply get_cards_begin_other].
Qed.

Lemma consolidated_exports_ignore_other_tabs_witness :
  ~ In "Forecasting" section_order /\
  forallb (fun c => negb (is_begin c)) [CaptureFig (chart "forecast")] = true /\
  build_report_ppt_brand sample_env
    (run [Begin "Forecasting"; CaptureFig (chart "forecast")]
         (registry_of "Overview" [chart "a"])) "Report"
  = build_report_ppt_brand sample_env (registry_of "Overview" [chart "a"]) "Report".
Proof.
  assert (H : ~ In "Forecasting" section_order).
  { unfold section_order. simpl. intros H.
    repeat (destruct H as [H | H]; [discriminate |]). exact H. }
  split; [exact H |]. split; [reflexivity |].
  exact (proj2 (proj2 (consolidated_exports_ignore_other_tabs sample_env
                         (registry_of "Overview" [chart "a"]) "Report" "Forecasting"
                         [CaptureFig (chart "forecast")] H eq_refl))).
Defined.

Lemma report_section_blocks_empty E r secs :
  (forall sec, In sec secs -> get_figs r sec = []) ->
  report_section_blocks E r secs = Ok [].
Proof.
  induction secs as [| sec secs IH]; intros H; [done |].
  simpl. rewrite (H sec (or_introl eq_refl)). apply IH.
  intros s Hs. apply H. by right.
Qed.

Lemma report_figs_nil_iff r :
  report_figs r = [] <-> (forall sec, In sec section_order -> get_figs r sec = []).
Proof.
  unfold report_figs. generalize section_order. intros secs.
  induction secs as [| sec secs IH]; simpl.
  - split; [intros _ s [] | done].
  - split.
    + intros H. apply app_eq_nil in H as [H1 H2].
      intros s [<- | Hs].
      * by destruct (get_figs r sec).
      * by apply IH.
    + intros H. rewrite (H sec (or_introl eq_refl)). simpl.
      apply IH. intros s Hs. apply H. by right.
Qed.

(** X11.  On a report without any chart the three consolidated exporters
    differ: the PDF and the deck raise "No charts found to export", the
    document is produced and holds its title, the introduction and the
    closing note only. *)
Theorem empty_report_three_exporters (E : Env) (r : Registry) (title_text : string) :
  (forall sec, In sec section_order -> get_figs r sec = []) ->
  (_DOCX_OK E = true ->
     build_report_docx E r title_text =
       Ok [Para (TitlePara title_text);
           Para (BodyPara (_intro_for_section title_text));
           Para (BodyPara _outro_note)]) /\
  (_PPTX_OK E = true -> build_report_ppt_brand E r title_text = Raise no_charts_found) /\
  (_PDF_MERGE_OK E = true ->
     build_report_pdf_same_style E r title_text = Raise no_charts_found).
Proof.
  intros Hempty. split; [| split]; intros Hok.
  - unfold build_report_docx. rewrite Hok. simpl negb. cbv iota.
    by rewrite (report_section_blocks_empty E r _ Hempty).
  - unfold build_report_ppt_brand. rewrite Hok. simpl negb. cbv iota.
    by rewrite (proj2 (report_figs_nil_iff r) Hempty).
  - unfold build_report_pdf_same_style. rewrite Hok. simpl negb. cbv iota.
    by rewrite (proj2 (report_pages_nil_iff E r section_order) Hempty).
Qed.

Lemma empty_report_three_exporters_witness :
  (forall sec, In sec section_order -> get_figs initial_registry sec = []) /\
  build_report_docx sample_env initial_registry "Report" =
    Ok [Para (TitlePara "Report");
        Para (BodyPara (_intro_for_section "Report"));
        Para (BodyPara _outro_note)] /\
  build_report_ppt_brand sample_env initial_registry "Report" = Raise no_charts_found.
Proof.
  assert (H : forall sec, In sec section_order -> get_figs initial_registry sec = [])
    by (intros sec _; reflexivity).
  split; [exact H |].
  destruct (empty_report_three_exporters sample_env initial_registry "Report" H)
    as (Hd & Hp & _).
  split; [exact (Hd eq_refl) | exact (Hp eq_refl)].
Defined.

Lemma report_chart_slides_ok E figs idx tot :
  (forall p, In p figs -> renders_for_slide E (snd p)) ->
  exists slides,
    report_chart_slides E figs idx tot = Ok (slides, idx + 2 * List.length figs) /\
    map kind_of slides = flat_map (fun _ => [KGraph; KExplain]) figs /\
    map number slides = seq idx (2 * List.length figs) /\
    Forall (fun s => total s = tot) slides.
Proof.
  revert idx. induction figs as [| [sec fig] figs IH]; intros idx Hren.
  - exists []. simpl. rewrite Nat.add_0_r.
    split; [done |]. split; [done |]. split; [done | constructor].
  - destruct (graph_slide_ok E fig (report_caption_of sec fig) idx tot) as [png Hg];
      [apply (Hren (sec, fig)); by left |].
    destruct (IH (idx + 2)) as (slides & Hrun & Hkinds & Hnums & Htot);
      [intros p Hp; apply Hren; by right |].
    exists (mkSlide (GraphSlide (report_caption_of sec fig) png) idx tot ::
            _ppt_add_explain_slide (report_caption_of sec fig)
              (_figure_summary_points E fig) (idx + 1) tot :: slides).
    split.
    { simpl report_chart_slides. rewrite Hg, Hrun. simpl. do 2 f_equal. lia. }
    split; [simpl; by rewrite Hkinds |].
    split.
    { simpl map. rewrite Hnums.
      replace (2 * List.length ((sec, fig) :: figs))
        with (S (S (2 * List.length figs))) by (simpl; lia).
      simpl. do 2 f_equal. replace (idx + 1) with (S idx) by lia.
      f_equal. f_equal. lia. }
    by repeat constructor.
Qed.

Lemma report_figs_length r :
  List.length (report_figs r)
    = list_sum (map (fun sec => List.length (get_figs r sec)) section_order).
Proof.
  unfold report_figs. generalize section_order. intros secs.
  induction secs as [| sec secs IH]; [done |].
  simpl. by rewrite length_app, length_map, IH.
Qed.

Lemma in_report_figs r sec f :
  In (sec, f) (report_figs r) <-> In sec section_order /\ In f (get_figs r sec).
Proof.
  unfold report_figs. rewrite in_flat_map. split.
  - intros (s & Hs & Hin). apply in_map_iff in Hin as (g & Heq & Hg).
    inversion Heq; subst. by split.
  - intros [Hs Hf]. exists sec. split; [done |]. apply in_map_iff. by exists f.
Qed.

(** X12.  The consolidated deck raises "No charts found to export"
    exactly when the seven sections hold no chart, before anything is
    rendered.  Otherwise, when every chart renders, it has 2N+2 slides for
    the N charts of the seven sections taken together: title, an image and
    an explanation slide per chart, conclusion, numbered 1 to 2N+2 over the
    total 2N+2. *)
Theorem report_deck_sequence (E : Env) (r : Registry) (title_text : string) :
  _PPTX_OK E = true ->
  (build_report_ppt_brand E r title_text = Raise no_charts_found <->
   (forall sec, In sec section_order -> get_figs r sec = [])) /\
  ((exists sec, In sec section_order /\ get_figs r sec <> []) ->
   (forall sec fig, In sec section_order -> In fig (get_figs r sec) ->
      renders_for_slide E fig) ->
   exists deck,
     build_report_ppt_brand E r title_text = Ok deck /\
     List.length deck
       = 2 * list_sum (map (fun sec => List.length (get_figs r sec)) section_order) + 2 /\
     map kind_of deck =
       KTitle :: flat_map (fun _ => [KGraph; KExplain]) (report_figs r)
         ++ [KConclusion] /\
     map number deck = seq 1 (List.length deck) /\
     Forall (fun s => total s = List.length deck) deck).
Proof.
  intros Hok. unfold build_report_ppt_brand. rewrite Hok. simpl negb. cbv iota.
  split.
  - rewrite <- report_figs_nil_iff.
    destruct (report_figs r) as [| p ps] eqn:Hfigs; [done |].
    split; [| discriminate].
    destruct (report_chart_slides E (p :: ps) (1 + 1) (1 + 2 * List.length (p :: ps) + 1))
      as [[sl i] | e] eqn:Hs; simpl.
    + discriminate.
    + intros H. inversion H; subst e. exfalso.
      clear H. revert Hs. generalize (1 + 1) (1 + 2 * List.length (p :: ps) + 1).
      generalize (p :: ps). intros l.
      induction l as [| [s f] l IH]; intros i t; simpl; [discriminate |].
      unfold _ppt_add_graph_slide at 1.
      destruct (to_image E f ppt_preset) as [png |]; simpl.
      * destruct (report_chart_slides E l (i + 2) t) as [m | e'] eqn:Hl; simpl;
          [discriminate |].
        intros H. inversion H; subst e'. by apply (IH _ _ Hl).
      * destruct (to_image E f ppt_preset_default) as [png |]; simpl; [| discriminate].
        destruct (report_chart_slides E l (i + 2) t) as [m | e'] eqn:Hl; simpl;
          [discriminate |].
        intros H. inversion H; subst e'. by apply (IH _ _ Hl).
  - intros (sec0 & Hsec0 & Hne) Hren.
    rewrite <- report_figs_length.
    assert (Hfigs : report_figs r <> []).
    { intros Hnil. apply Hne. by apply (proj1 (report_figs_nil_iff r) Hnil). }
    assert (Hin : forall p, In p (report_figs r) -> renders_for_slide E (snd p)).
    { intros [s f] Hp. apply in_report_figs in Hp as [Hs Hf]. by apply (Hren s f). }
    destruct (report_figs r) as [| p0 ps0]; [done |].
    cbv iota. remember (p0 :: ps0) as figs eqn:Hfigs_eq. clear Hfigs_eq Hfigs.
    set (tot := 2 * List.length figs + 2).
    destruct (report_chart_slides_ok E figs 2 tot Hin)
      as (slides & Hrun & Hkinds & Hnums & Htot).
    assert (Hlen : List.length slides = 2 * List.length figs).
    { rewrite <- (length_map number), Hnums. apply length_seq. }
    exists (_ppt_add_title_slide title_text 1 tot :: slides ++
            [_ppt_add_conclusion report_conclusion_points (2 + 2 * List.length figs) tot]).
    assert (Hdeck : List.length
              (_ppt_add_title_slide title_text 1 tot :: slides ++
               [_ppt_add_conclusion report_conclusion_points
                  (2 + 2 * List.length figs) tot]) = tot).
    { cbn [List.length]. rewrite length_app, Hlen. cbn [List.length]. unfold tot. lia. }
    split.
    { replace (1 + 2 * List.length figs + 1) with tot by (unfold tot; lia).
      replace (1 + 1) with 2 by lia. rewrite Hrun. reflexivity. }
    split; [exact Hdeck |].
    split; [simpl; by rewrite map_app, Hkinds |].
    rewrite Hdeck. split.
    { change (map number (_ppt_add_title_slide title_text 1 tot :: slides ++
                [_ppt_add_conclusion report_conclusion_points
                   (2 + 2 * List.length figs) tot]))
        with (1 :: map number (slides ++
                [_ppt_add_conclusion report_conclusion_points
                   (2 + 2 * List.length figs) tot])).
      rewrite map_app, Hnums. unfold tot.
      replace (2 * List.length figs + 2) with (1 + (2 * List.length figs + 1)) by lia.
      rewrite (seq_app 1 (2 * List.length figs + 1) 1).
      rewrite (seq_app (2 * List.length figs) 1 (1 + 1)). reflexivity. }
    constructor; [done |]. apply Forall_app. split; [done |]. by repeat constructor.
Qed.

Lemma report_deck_sequence_witness :
  _PPTX_OK sample_env = true /\
  (exists sec, In sec section_order /\ get_figs three_tab_registry sec <> []) /\
  (forall sec fig, In sec section_order -> In fig (get_figs three_tab_registry sec) ->
     renders_for_slide sample_env fig) /\
  exists deck,
    build_report_ppt_brand sample_env three_tab_registry "Report" = Ok deck /\
    List.length deck = 8.
Proof.
  assert (H1 : exists sec, In sec section_order /\ get_figs three_tab_registry sec <> []).
  { exists "Overview". split; [by left | vm_compute; discriminate]. }
  assert (H2 : forall sec fig, In sec section_order ->
                 In fig (get_figs three_tab_registry sec) ->
                 renders_for_slide sample_env fig)
    by (intros sec fig _ _; left; discriminate).
  split; [reflexivity |]. split; [exact H1 |]. split; [exact H2 |].
  destruct (proj2 (report_deck_sequence sample_env three_tab_registry "Report" eq_refl)
              H1 H2) as (deck & Hb & Hlen & _).
  exists deck. split; [exact Hb |]. rewrite Hlen. vm_compute. reflexivity.
Defined.

(** X13.  [_report_collect_figs] returns the charts of the "Report"
    section, each tagged "Report", whenever that section holds any; else it
    returns the charts of the seven consolidated sections, in the order of
    the sections and of capture, each tagged with its section.  A chart
    captured under any other name, such as "Forecasting", is never
    returned, and the result is empty exactly when "Report" and the seven
    sections are all empty. *)
Theorem report_collect_figs_spec (r : Registry) :
  (get_figs r "Report" <> [] ->
     _report_collect_figs r = map (fun f => ("Report", f)) (get_figs r "Report")) /\
  (get_figs r "Report" = [] ->
     _report_collect_figs r = report_figs r /\
     List.length (_report_collect_figs r)
       = list_sum (map (fun sec => List.length (get_figs r sec)) section_order)) /\
  (forall sec f, In (sec, f) (_report_collect_figs r) ->
     (sec = "Report" \/ In sec section_order) /\ In f (get_figs r sec)) /\
  (_report_collect_figs r = [] <->
   get_figs r "Report" = [] /\
   (forall sec, In sec section_order -> get_figs r sec = [])).
Proof.
  unfold _report_collect_figs. fold (report_figs r).
  destruct (get_figs r "Report") as [| f0 fs0] eqn:Hrep.
  - split; [done |].
    split; [intros _; split; [done | apply report_figs_length] |].
    split.
    + intros sec f Hin. apply in_report_figs in Hin as [Hs Hf]. split; [by right | done].
    + rewrite report_figs_nil_iff. split; [by split | by intros [_ H]].
  - split; [done |]. split; [discriminate |]. split.
    + intros sec f Hin. apply in_map_iff in Hin as (g & Heq & Hg).
      inversion Heq; subst. split; [by left | by rewrite Hrep].
    + split; [discriminate | intros [H _]; discriminate].
Qed.

Lemma report_collect_figs_spec_witness :
  get_figs three_tab_registry "Report" = [] /\
  _report_collect_figs three_tab_registry
    = [("Overview", chart "a"); ("Expenses", chart "b"); ("Expenses", chart "c")].
Proof.
  assert (H : get_figs three_tab_registry "Report" = []) by reflexivity.
  split; [exact H |].
  rewrite (proj1 (proj1 (proj2 (report_collect_figs_spec three_tab_registry)) H)).
  vm_compute. reflexivity.
Defined.

(** ** Composition sentences *)



(** ** Size of a section document *)

Lemma figure_paragraphs_length E idx fig :
  List.length (figure_paragraphs E idx fig) = 2 + List.length (data fig).
Proof.
  unfold figure_paragraphs. destruct (data fig) as [| tr traces]; [done |].
  cbn [List.length]. rewrite length_app, length_map. simpl. lia.
Qed.

Lemma document_body_length E idx figs :
  List.length (document_body E idx figs)
    = list_sum (map (fun fig => 2 + List.length (data fig)) figs).
Proof.
  revert idx. induction figs as [| fig figs IH]; intros idx; [done |].
  cbn [document_body map list_sum].
  by rewrite length_app, figure_paragraphs_length, IH.
Qed.

(** X15.  When python-docx is available and no coercion raises, the
    document of a section has three paragraphs (title, introduction, closing
    note) plus, for every chart, its heading, one bullet per trace and one
    more paragraph (the note on stacked bars, or "No chart data available"
    for a chart without traces).  A section that was never rendered gives
    the three paragraphs alone. *)
Theorem section_document_size (E : Env) (r : Registry) (sec title_text : string) :
  _DOCX_OK E = true ->
  (forall fig tr, In fig (get_figs r sec) -> In tr (data fig) ->
     ~ coercion_raises E tr) ->
  exists doc,
    build_section_docx E r sec title_text = Ok doc /\
    List.length doc
      = 3 + list_sum (map (fun fig => 2 + List.length (data fig)) (get_figs r sec)) /\
    (SECTION_FIGS r !! sec = None -> List.length doc = 3).
Proof.
  intros Hok Hno. unfold build_section_docx. rewrite Hok. simpl negb. cbv iota.
  rewrite (figure_blocks_ok E 1 _ Hno). cbn [bind].
  eexists. split; [reflexivity |].
  assert (Hlen : List.length
            (TitlePara title_text :: BodyPara (_intro_for_section title_text) ::
             document_body E 1 (get_figs r sec) ++ [BodyPara _outro_note])
          = 3 + list_sum (map (fun fig => 2 + List.length (data fig)) (get_figs r sec))).
  { cbn [List.length]. rewrite length_app, document_body_length. simpl. lia. }
  split; [exact Hlen |].
  intros Hnone. rewrite Hlen. unfold get_figs. by rewrite Hnone.
Qed.

Lemma section_document_size_witness :
  _DOCX_OK sample_env = true /\
  exists doc,
    build_section_docx sample_env (registry_of "Overview" [chart "a"; chart "b"])
      "Overview" "Overview" = Ok doc /\
    List.length doc = 9.
Proof.
  split; [reflexivity |].
  destruct (section_document_size sample_env
              (registry_of "Overview" [chart "a"; chart "b"]) "Overview" "Overview"
              eq_refl) as (doc & Hd & Hlen & _).
  { intros fig tr Hf Ht (l & Hl & Hn).
    vm_compute in Hf. destruct Hf as [<- | [<- | []]];
      (simpl in Ht; destruct Ht as [<- | []];
       vm_compute in Hl; inversion Hl; subst l;
       vm_compute in Hn; discriminate). }
  exists doc. split; [exact Hd |]. rewrite Hlen. vm_compute. reflexivity.
Defined.

(** ** Outcome of a section page and of a section deck *)

Lemma rasterize_all_length E figs images :
  rasterize_all E figs = Ok images -> List.length images <= List.length figs.
Proof.
  revert images. induction figs as [| f figs IH]; intros images; simpl.
  - intros H. inversion H. done.
  - destruct (rasterize E f) as [o | e]; simpl; [| discriminate].
    destruct (rasterize_all E figs) as [more | e]; simpl; [| discriminate].
    intros H. inversion H; subst images. specialize (IH more eq_refl).
    destruct o; simpl; lia.
Qed.

Lemma grid_shape_cells n :
  fst (grid_shape n) * snd (grid_shape n) <= 9.
Proof.
  unfold grid_shape.
  repeat match goal with
         | |- context [if ?b then _ else _] => destruct b
         end; simpl; lia.
Qed.

Lemma card_rows_of_nonempty groups :
  Forall (fun row : string * list Card => snd row <> []) (card_rows_of groups).
Proof.
  unfold card_rows_of. induction groups as [| g groups IH]; simpl; [constructor |].
  destruct (cards g) as [| c cs] eqn:Hc; simpl; [exact IH |].
  constructor; [simpl; by rewrite Hc | exact IH].
Qed.

(** X16.  A section page that is produced carries the given title; none
    of the section's charts was rejected by the renderer at all five presets
    of the chain; it embeds at most nine bitmaps and never more than the
    section has charts; it has a grid exactly when the section has charts;
    and none of its card rows is empty (the tile width divides by the number
    of cards of the row). *)
Theorem section_pdf_page (E : Env) (r : Registry) (sec title_text : string)
    (page : Page) :
  build_section_pdf E r sec title_text = Ok page ->
  page_title page = title_text /\
  (forall fig, In fig (get_figs r sec) -> ~ rejected_by_chain E fig) /\
  List.length (placed page) <= Nat.min 9 (List.length (get_figs r sec)) /\
  (grid page = None <-> get_figs r sec = []) /\
  Forall (fun row : string * list Card => snd row <> []) (card_rows page).
Proof.
  intros Hpage.
  assert (Hacc : forall fig, In fig (get_figs r sec) -> ~ rejected_by_chain E fig).
  { intros fig Hin Hrej.
    rewrite (build_section_pdf_rejected E r sec title_text fig Hin Hrej) in Hpage.
    discriminate. }
  revert Hpage. unfold build_section_pdf.
  destruct (get_figs r sec) as [| f fs] eqn:Hf.
  - intros H. inversion H; subst page. simpl.
    split; [done |]. split; [done |]. split; [lia |]. split; [done |].
    apply card_rows_of_nonempty.
  - destruct (rasterize_all E (f :: fs)) as [images | e] eqn:Hr;
      cbn [bind]; [| discriminate].
    pose proof (rasterize_all_length _ _ _ Hr) as Hlen.
    pose proof (grid_shape_cells (List.length images)) as Hcells.
    destruct (grid_shape (List.length images)) as [cols rows] eqn:Hg.
    intros H. inversion H; subst page. cbn [page_title placed grid card_rows].
    cbn [fst snd] in Hcells.
    split; [done |]. split; [exact Hacc |]. split.
    + rewrite <- (length_map image), place_rows_images, length_firstn.
      change (skipn 0 images) with images. lia.
    + split; [split; discriminate |]. apply card_rows_of_nonempty.
Qed.

Lemma section_pdf_page_witness :
  exists page,
    build_section_pdf sample_env (registry_of "Overview" [chart "a"; chart "b"])
      "Overview" "Energy overview" = Ok page /\
    page_title page = "Energy overview" /\
    List.length (placed page) <= 2.
Proof.
  eexists. split; [vm_compute; reflexivity |].
  destruct (section_pdf_page sample_env (registry_of "Overview" [chart "a"; chart "b"])
              "Overview" "Energy overview" _ eq_refl) as (Ht & _ & Hn & _).
  split; [exact Ht | exact Hn].
Defined.

Lemma renders_for_slide_dec E fig :
  renders_for_slide E fig \/ ~ renders_for_slide E fig.
Proof.
  unfold renders_for_slide.
  destruct (to_image E fig ppt_preset) as [p |]; [left; left; discriminate |].
  destruct (to_image E fig ppt_preset_default) as [p |];
    [left; right; discriminate | right; intros [H | H]; congruence].
Qed.

Lemma chart_slides_raises E title_text figs idx tot fig :
  In fig figs -> ~ renders_for_slide E fig ->
  chart_slides E title_text figs idx tot = Raise (LibraryError "to_image").
Proof.
  revert idx. induction figs as [| f figs IH]; intros idx Hin Hno; [done |].
  simpl chart_slides.
  destruct (renders_for_slide_dec E f) as [Hf | Hf].
  - destruct (graph_slide_ok E f (caption_of f title_text) idx tot Hf) as [png ->].
    cbn [bind]. destruct Hin as [-> | Hin]; [done |].
    by rewrite (IH (idx + 2) Hin Hno).
  - by rewrite (graph_slide_raises E f (caption_of f title_text) idx tot Hf).
Qed.

(** X17.  With python-pptx available, one chart for which the renderer
    returns a bitmap at neither of the two calls of the chart slide makes the
    export of the section deck raise: no chart is skipped, so a deck that is
    produced has a rendered slide for every chart.  A section without charts
    still gives a deck, the title slide "1 / 2" and the conclusion "2 / 2"
    (the consolidated deck raises in that case). *)
Theorem section_deck_outcome (E : Env) (r : Registry) (sec title_text : string) :
  _PPTX_OK E = true ->
  (forall fig, In fig (get_figs r sec) -> ~ renders_for_slide E fig ->
     build_section_ppt_brand E r sec title_text = Raise (LibraryError "to_image")) /\
  (forall deck, build_section_ppt_brand E r sec title_text = Ok deck ->
     forall fig, In fig (get_figs r sec) -> renders_for_slide E fig) /\
  (get_figs r sec = [] ->
   build_section_ppt_brand E r sec title_text
     = Ok [_ppt_add_title_slide title_text 1 2;
           _ppt_add_conclusion conclusion_points 2 2]).
Proof.
  intros Hp.
  assert (Hraise : forall fig, In fig (get_figs r sec) -> ~ renders_for_slide E fig ->
            build_section_ppt_brand E r sec title_text
              = Raise (LibraryError "to_image")).
  { intros fig Hin Hno. unfold build_section_ppt_brand. rewrite Hp.
    simpl negb. cbv iota.
    by rewrite (chart_slides_raises E title_text _ _ _ fig Hin Hno). }
  split; [exact Hraise |]. split.
  - intros deck Hdeck fig Hin.
    destruct (renders_for_slide_dec E fig) as [Hf | Hf]; [done |].
    rewrite (Hraise fig Hin Hf) in Hdeck. discriminate.
  - intros Hnil. unfold build_section_ppt_brand. rewrite Hp, Hnil. reflexivity.
Qed.

Lemma section_deck_outcome_witness :
  _PPTX_OK sample_env = true /\
  get_figs (registry_of "Overview" []) "Expenses" = [] /\
  build_section_ppt_brand sample_env (registry_of "Overview" []) "Expenses" "Expenses"
    = Ok [_ppt_add_title_slide "Expenses" 1 2;
          _ppt_add_conclusion conclusion_points 2 2].
Proof.
  split; [reflexivity |]. split; [reflexivity |].
  destruct (section_deck_outcome sample_env (registry_of "Overview" [])
              "Expenses" "Expenses" eq_refl) as (_ & _ & H).
  exact (H eq_refl).
Defined.
